(** * LiveLinen front-end scripts: a shallow embedding and its properties

    The first part of the file holds the definitions, module by module:

    - [JS]: the part of the ECMAScript runtime the scripts rely on
      (binary64 numbers, [Number(...)] on decimal literals,
      [Number.prototype.toFixed], [Number::toString], ASCII case mapping,
      [String.prototype.trim]);
    - [ComponentForm]: [static/components/js/component_form.js]
      ([computeClientMetrics], [populateFromItemResponse], [safeFetch] and
      the category / quality / product chain, as an event loop over the
      page and the requests in flight);
    - [Costing]: the costing-sheet script ([updateSkuPreviews],
      [debounceSkuPreview], with timeouts on a clock of milliseconds);
    - [Chat]: [staticfiles/chat/js/chat.js] ([sendMessage]).

    The second part holds the properties, in the modules [JSFacts],
    [MetricFacts], [PopulateFacts], [ChainFacts], [StaleFacts],
    [SafeFetchFacts], [CostingFacts] and [ChatFacts], followed by
    [RequestFacts] (what [safeFetch] sends and how its promise settles),
    [ListenerFacts] (the listeners of the form and the loads that settle),
    [PreviewFacts] (the SKU preview list) and [ChatLineFacts] (the system
    lines of the chat).

    Numbers are IEEE-754 binary64 values, taken from the specification of
    floating-point arithmetic of the standard library ([SpecFloat]), which
    computes on integers and needs no axiom. *)

From Stdlib Require Import ZArith NArith Bool List String Ascii Lia.
From Stdlib Require Import SpecFloat.
Import ListNotations.

Open Scope string_scope.
Open Scope Z_scope.

(* ================================================================== *)
(** * The ECMAScript runtime *)
(* ================================================================== *)

Module JS.

(** ** Numbers: binary64 *)

Definition number := spec_float.

Definition prec : Z := 53.
Definition emax : Z := 1024.

Definition mul : number -> number -> number := SFmul prec emax.
Definition add : number -> number -> number := SFadd prec emax.
Definition div : number -> number -> number := SFdiv prec emax.

(** [a < b] and [a > b] of the language: false as soon as one side is NaN. *)
Definition lt (a b : number) : bool := SFltb a b.
Definition gt (a b : number) : bool := SFltb b a.
Definition le (a b : number) : bool := SFleb a b.

Definition pzero : number := S754_zero false.
Definition one : number := S754_finite false 4503599627370496 (-52).

Definition isFinite (x : number) : bool :=
  match x with
  | S754_zero _ | S754_finite _ _ _ => true
  | S754_infinity _ | S754_nan => false
  end.

Definition isNaN (x : number) : bool :=
  match x with S754_nan => true | _ => false end.

(** The sign bit; NaN has none. *)
Definition signbit (x : number) : bool :=
  match x with
  | S754_zero s | S754_infinity s | S754_finite s _ _ => s
  | S754_nan => false
  end.

(** The number nearest to [(-1)^neg * m * 10^e10] (ties to even): the
    "Number value" of a decimal literal with digits [m] and decimal
    exponent [e10]. *)
Definition of_decimal (neg : bool) (m : N) (e10 : Z) : number :=
  match m with
  | N0 => S754_zero neg
  | Npos p =>
      match e10 with
      | Zneg k => div (S754_finite neg p 0) (S754_finite false (10 ^ k) 0)
      | _ => binary_round prec emax neg (p * Z.to_pos (10 ^ e10)) 0
      end
  end.

(** ** Characters and decimal digits *)

Definition code (c : ascii) : N := N_of_ascii c.

Definition is_digit (c : ascii) : bool :=
  ((48 <=? code c) && (code c <=? 57))%N.

Definition digit_val (c : ascii) : N := (code c - 48)%N.

Definition digit_char (d : N) : ascii := ascii_of_N (48 + d).

(** Value of a string of decimal digits, most significant first. *)
Fixpoint digits_value_from (acc : N) (s : string) : N :=
  match s with
  | EmptyString => acc
  | String c r => digits_value_from (10 * acc + digit_val c)%N r
  end.

Definition digits_value (s : string) : N := digits_value_from 0 s.

(** The longest prefix of digits, and what follows it. *)
Fixpoint take_digits (s : string) : string * string :=
  match s with
  | EmptyString => (EmptyString, EmptyString)
  | String c r =>
      if is_digit c
      then let '(d, rest) := take_digits r in (String c d, rest)
      else (EmptyString, s)
  end.

(** Decimal digits of a natural number, without leading zeros ("0" for 0).
    The fuel bounds the number of digits; [dec_string] gives enough. *)
Fixpoint dec_digits (fuel : nat) (n : N) (acc : string) : string :=
  match fuel with
  | O => acc
  | S f =>
      let acc' := String (digit_char (n mod 10)) acc in
      if (n / 10 =? 0)%N then acc' else dec_digits f (n / 10)%N acc'
  end.

Definition dec_string (n : N) : string :=
  dec_digits (S (N.to_nat (N.log2 n))) n EmptyString.

Fixpoint zeros (k : nat) : string :=
  match k with
  | O => EmptyString
  | S k' => String "0" (zeros k')
  end.

(** ** [Number(s)]: StringToNumber on decimal literals

    The grammar is StrDecimalLiteral: an optional sign, then [Infinity] or
    digits with an optional fraction and an optional exponent part.  The
    empty string is [+0]; anything else is NaN.  (White space and the
    [0x], [0o], [0b] literals of the full grammar need characters that
    neither a string filtered by [/[^0-9.\-]/g] nor an output of [toFixed]
    contains.) *)

Definition split_sign (s : string) : bool * string :=
  match s with
  | String "-" r => (true, r)
  | String "+" r => (false, r)
  | _ => (false, s)
  end.

(** ExponentPart: [e] or [E], an optional sign, at least one digit, and
    nothing after it. *)
Definition parse_exponent (s : string) : option Z :=
  match s with
  | EmptyString => Some 0
  | String c r =>
      if (Ascii.eqb c "e" || Ascii.eqb c "E")%bool then
        let '(neg, r') := split_sign r in
        let '(ds, rest) := take_digits r' in
        match ds, rest with
        | String _ _, EmptyString =>
            Some (if neg then - Z.of_N (digits_value ds)
                  else Z.of_N (digits_value ds))
        | _, _ => None
        end
      else None
  end.

Definition parse_unsigned (neg : bool) (s : string) : number :=
  if String.eqb s "Infinity" then S754_infinity neg
  else
    let '(ip, r1) := take_digits s in
    let '(fp, r2) :=
      match r1 with
      | String "." r => take_digits r
      | _ => (EmptyString, r1)
      end in
    match (ip ++ fp)%string with
    | EmptyString => S754_nan
    | String _ _ as ds =>
        match parse_exponent r2 with
        | Some e => of_decimal neg (digits_value ds) (e - Z.of_nat (String.length fp))
        | None => S754_nan
        end
    end.

Definition Number (s : string) : number :=
  match s with
  | EmptyString => pzero
  | _ => let '(neg, r) := split_sign s in parse_unsigned neg r
  end.

(** ** [Number.prototype.toFixed]

    For a finite [x] below [10^21] the result is the decimal expansion of
    the integer [n] for which [n / 10^f - x] is as close to zero as
    possible (the larger [n] when two are as close), with a point before
    the last [f] digits and a leading ["-"] when [x < 0].  The exact value
    of a finite number is [m * 2^e], so [n] is computed on integers. *)

(** [n] for the magnitude [m * 2^e] and [f] fraction digits. *)
Definition round_scaled (m : positive) (e : Z) (f : nat) : N :=
  let p10 := (10 ^ N.of_nat f)%N in
  match e with
  | Zneg k => ((2 * Npos m * p10 + 2 ^ Npos k) / (2 * 2 ^ Npos k))%N
  | _ => (Npos m * 2 ^ Z.to_N e * p10)%N
  end.

(** The digits of [n] with a point before the last [f] ones. *)
Definition fixed_digits (n : N) (f : nat) : string :=
  match f with
  | O => dec_string n
  | S _ =>
      let p10 := (10 ^ N.of_nat f)%N in
      let b := dec_string (n mod p10) in
      dec_string (n / p10) ++ "." ++ zeros (f - String.length b) ++ b
  end.

(** Whether the magnitude [m * 2^e] reaches [10^21]. *)
Definition ge_1e21 (m : positive) (e : Z) : bool :=
  match e with
  | Zneg k => (10 ^ 21 * 2 ^ Npos k <=? Npos m)%N
  | _ => (10 ^ 21 <=? Npos m * 2 ^ Z.to_N e)%N
  end.

(** *** [Number::toString] at and above [10^21]

    Such a number is an integer [X].  Its string is the shortest digit
    sequence [s] with [s * 10^j] converting back to the number, written in
    exponent notation.  [shortest x X j] tries the multiples of [10^j]
    around [X], from the coarsest [j] down to [j = 0], where [X] itself
    converts back. *)
Fixpoint shortest (x : number) (X : N) (j : nat) : N :=
  let g := (10 ^ N.of_nat j)%N in
  let lo := (X / g * g)%N in
  let hi := (lo + g)%N in
  let oklo := ((0 <? lo)%N && SFeqb (of_decimal false lo 0) x)%bool in
  let okhi := SFeqb (of_decimal false hi 0) x in
  match oklo, okhi with
  | true, true =>
      if (X - lo <? hi - X)%N then lo
      else if (hi - X <? X - lo)%N then hi
      else if N.even (lo / g) then lo else hi
  | true, false => lo
  | false, true => hi
  | false, false =>
      match j with
      | O => X
      | S j' => shortest x X j'
      end
  end.

Fixpoint strip_trailing_zeros (s : string) : string :=
  match s with
  | EmptyString => EmptyString
  | String c r =>
      match strip_trailing_zeros r with
      | EmptyString => if Ascii.eqb c "0" then EmptyString else String c EmptyString
      | r' => String c r'
      end
  end.

Definition exponent_notation (V : N) : string :=
  let all := dec_string V in
  let expo := dec_string (N.of_nat (String.length all - 1)) in
  match strip_trailing_zeros all with
  | String d EmptyString => String d EmptyString ++ "e+" ++ expo
  | String d r => String d EmptyString ++ "." ++ r ++ "e+" ++ expo
  | EmptyString => "0"
  end.

Definition toString_big (m : positive) (e : Z) : string :=
  let X := match e with
           | Zneg k => (Npos m / 2 ^ Npos k)%N
           | _ => (Npos m * 2 ^ Z.to_N e)%N
           end in
  exponent_notation
    (shortest (S754_finite false m e) X (String.length (dec_string X))).

Definition toFixed (x : number) (f : nat) : string :=
  match x with
  | S754_nan => "NaN"
  | S754_infinity s => if s then "-Infinity" else "Infinity"
  | S754_zero _ => fixed_digits 0 f
  | S754_finite s m e =>
      (if s then "-" else "") ++
      (if ge_1e21 m e then toString_big m e
       else fixed_digits (round_scaled m e f) f)
  end.

(** ** [Number::toString] (radix 10)

    For a finite [x > 0] the string is laid out from the integers [n], [k]
    and [s] with [10^(k-1) <= s < 10^k], [s * 10^(n-k)] converting back to
    [x], and [k] as small as possible (the [s] nearest to [x] when several
    do). *)

(** The exact value [m * 2^e] as a fraction. *)
Definition exact_ratio (m : positive) (e : Z) : N * N :=
  match e with
  | Zneg k => (Npos m, 2 ^ Npos k)%N
  | _ => (Npos m * 2 ^ Z.to_N e, 1)%N
  end.

(** The least [j >= 1] with [num * 10^j >= den], for [num < den]. *)
Fixpoint leading_zeros (fuel : nat) (num den : N) (j : nat) : nat :=
  match fuel with
  | O => j
  | S f =>
      if (den <=? num * 10 ^ N.of_nat j)%N then j
      else leading_zeros f num den (S j)
  end.

(** [n] with [10^(n-1) <= num / den < 10^n]. *)
Definition decimal_exponent (num den : N) : Z :=
  if (den <=? num)%N then Z.of_nat (String.length (dec_string (num / den)))
  else 1 - Z.of_nat (leading_zeros 400 num den 1).

(** [num / den * 10^(k - n)] as a fraction. *)
Definition scaled (num den : N) (k : nat) (n : Z) : N * N :=
  match Z.of_nat k - n with
  | Zneg p => (num, den * 10 ^ Npos p)%N
  | d => (num * 10 ^ Z.to_N d, den)%N
  end.

(** With [k] digits, the candidates for [s] are the two integers around
    the scaled value. *)
Definition pick (x : number) (num den : N) (n : Z) (k : nat) : option N :=
  let '(a, b) := scaled num den k n in
  let lo := (a / b)%N in
  let r := (a mod b)%N in
  let hi := (lo + 1)%N in
  let oklo := ((0 <? lo)%N && SFeqb (of_decimal false lo (n - Z.of_nat k)) x)%bool in
  let okhi := SFeqb (of_decimal false hi (n - Z.of_nat k)) x in
  match oklo, okhi with
  | true, true =>
      Some (if (2 * r <? b)%N then lo
            else if (b <? 2 * r)%N then hi
            else if N.even lo then lo else hi)
  | true, false => Some lo
  | false, true => Some hi
  | false, false => None
  end.

(** The first [k] that has a candidate converting back; a binary64 number
    needs 17 digits at most. *)
Fixpoint shortest_digits (fuel : nat) (x : number) (num den : N) (n : Z) (k : nat)
  : N * nat :=
  match pick x num den n k with
  | Some s => (s, k)
  | None =>
      match fuel with
      | O => (let '(a, b) := scaled num den k n in (a / b)%N, k)
      | S f => shortest_digits f x num den n (S k)
      end
  end.

Fixpoint first_chars (n : nat) (s : string) : string :=
  match n, s with
  | S n', String c r => String c (first_chars n' r)
  | _, _ => EmptyString
  end.

Fixpoint skip_chars (n : nat) (s : string) : string :=
  match n, s with
  | S n', String _ r => skip_chars n' r
  | _, _ => s
  end.

(** The digits of [s] and the exponent [n], in fixed notation for
    [-6 < n <= 21] and in exponent notation otherwise. *)
Definition layout (ds : string) (n : Z) : string :=
  match ds with
  | EmptyString => "0"
  | String d r =>
      let k := Z.of_nat (String.length ds) in
      if ((k <=? n) && (n <=? 21))%bool then ds ++ zeros (Z.to_nat (n - k))
      else if ((0 <? n) && (n <=? 21))%bool then
        first_chars (Z.to_nat n) ds ++ "." ++ skip_chars (Z.to_nat n) ds
      else if ((-6 <? n) && (n <=? 0))%bool then
        "0." ++ zeros (Z.to_nat (- n)) ++ ds
      else
        let expo := (if 0 <=? n - 1 then "+" else "-") ++ dec_string (Z.abs_N (n - 1)) in
        match r with
        | EmptyString => String d EmptyString ++ "e" ++ expo
        | _ => String d EmptyString ++ "." ++ r ++ "e" ++ expo
        end
  end.

Definition toString_finite (m : positive) (e : Z) : string :=
  let x := S754_finite false m e in
  let '(num, den) := exact_ratio m e in
  let n := decimal_exponent num den in
  let '(s, k) := shortest_digits 20 x num den n 1 in
  let all := dec_string s in
  layout (strip_trailing_zeros all)
         (n + (Z.of_nat (String.length all) - Z.of_nat k)).

Definition Number_toString (x : number) : string :=
  match x with
  | S754_nan => "NaN"
  | S754_zero _ => "0"
  | S754_infinity s => if s then "-Infinity" else "Infinity"
  | S754_finite s m e => (if s then "-" else "") ++ toString_finite m e
  end.

(** ** Strings *)

Fixpoint filter_chars (p : ascii -> bool) (s : string) : string :=
  match s with
  | EmptyString => EmptyString
  | String c r => if p c then String c (filter_chars p r) else filter_chars p r
  end.

Fixpoint map_chars (g : ascii -> ascii) (s : string) : string :=
  match s with
  | EmptyString => EmptyString
  | String c r => String (g c) (map_chars g r)
  end.

Definition lower_char (c : ascii) : ascii :=
  if ((65 <=? code c) && (code c <=? 90))%N then ascii_of_N (code c + 32) else c.

Definition upper_char (c : ascii) : ascii :=
  if ((97 <=? code c) && (code c <=? 122))%N then ascii_of_N (code c - 32) else c.

(** Case mapping on the ASCII letters (one [ascii] per code unit). *)
Definition toLowerCase : string -> string := map_chars lower_char.
Definition toUpperCase : string -> string := map_chars upper_char.

(** White space and line terminators among the code units below 256. *)
Definition is_space (c : ascii) : bool :=
  let n := code c in
  (((9 <=? n) && (n <=? 13)) || (n =? 32) || (n =? 160))%N.

Fixpoint trim_start (s : string) : string :=
  match s with
  | EmptyString => EmptyString
  | String c r => if is_space c then trim_start r else s
  end.

(** Drops the white space at the end: a character is kept when it is not a
    space or something is kept after it. *)
Fixpoint trim_end (s : string) : string :=
  match s with
  | EmptyString => EmptyString
  | String c r =>
      match trim_end r with
      | EmptyString => if is_space c then EmptyString else String c EmptyString
      | r' => String c r'
      end
  end.

Definition trim (s : string) : string := trim_end (trim_start s).

(** Truthiness of a string: only the empty string is falsy. *)
Definition truthy (s : string) : bool :=
  match s with EmptyString => false | _ => true end.

(** [a || b] on strings. *)
Definition or_else (a b : string) : string := if truthy a then a else b.

(** ** Predicates on digits and signs *)

(** A rounded magnitude is a zero, a finite number or an infinity, with the
    sign it was given. *)
Inductive signed (s : bool) : number -> Prop :=
| signed_zero : signed s (S754_zero s)
| signed_infinity : signed s (S754_infinity s)
| signed_finite m e : signed s (S754_finite s m e).

Fixpoint all_digits (s : string) : bool :=
  match s with
  | EmptyString => true
  | String c r => (is_digit c && all_digits r)%bool
  end.

Definition starts_nondigit (r : string) : Prop :=
  match r with
  | EmptyString => True
  | String c _ => is_digit c = false
  end.

(** A string that starts with a digit. *)
Definition digit_headed (s : string) : Prop :=
  match s with
  | EmptyString => False
  | String c _ => is_digit c = true
  end.

(** A mantissa that is not negative and has at most [n] binary digits. *)
Definition fits (n : Z) (r : shr_record) : Prop :=
  0 <= shr_m r /\ Zdigits2 (shr_m r) <= n.

(** A finite number whose magnitude is below [10^21], where [toFixed]
    prints every digit. *)
Definition below_1e21 (x : number) : bool :=
  match x with
  | S754_zero _ => true
  | S754_finite _ m e => negb (ge_1e21 m e)
  | S754_infinity _ | S754_nan => false
  end.

End JS.

(* ================================================================== *)
(** * static/components/js/component_form.js *)
(* ================================================================== *)

Module ComponentForm.
Import JS.

(** ** The Derived Metric Calculator *)

(** The numeric literals [100], [2.54] and [1.07] of the source. *)
Definition lit_100 : number := S754_finite false 7036874417766400 (-46).
Definition lit_2_54 : number := S754_finite false 5719571526760530 (-51).
Definition lit_1_07 : number := S754_finite false 4818851601286431 (-52).

(** The character class [0-9.\-] of the regular expression. *)
Definition numeric_char (c : ascii) : bool :=
  (is_digit c || Ascii.eqb c "." || Ascii.eqb c "-")%bool.

(** [parseNum]: [Number(String(v || "").replace(/[^0-9.\-]/g, ""))], and the
    fallback [0] when that is not finite. *)
Definition parseNum (v : string) : number :=
  let n := Number (filter_chars numeric_char v) in
  if isFinite n then n else pzero.

Definition cm_units : list string := ["cm"; "centimeter"; "centimetre"; "cms"].

Definition includes (l : list string) (u : string) : bool :=
  existsb (String.eqb u) l.

Record metrics := {
  final_price_per_unit : string;
  price_per_sqfoot : string;
  final_cost : string
}.

(** The local variables of [computeClientMetrics], in the order of the
    source. *)
Definition finalPricePerUnit_of (price logistics : number) : number :=
  Number (toFixed (mul price (add one (div logistics lit_100))) 2).

Definition widthInInch_of (width : number) (widthUom : string) : number :=
  let u := toLowerCase (or_else widthUom "inch") in
  if includes cm_units u then div width lit_2_54 else width.

Definition denom_of (widthInInch : number) : number :=
  div (div (mul widthInInch lit_2_54) lit_1_07) lit_100.

Definition pricePerSqft_of (finalPricePerUnit denom : number) : number :=
  if gt denom pzero then div finalPricePerUnit denom else pzero.

Definition computeClientMetrics
    (priceStr widthStr widthUom logisticsStr : string) : metrics :=
  let price := parseNum priceStr in
  let width := parseNum widthStr in
  let logistics := parseNum logisticsStr in
  let finalPricePerUnit := finalPricePerUnit_of price logistics in
  let widthInInch := widthInInch_of width widthUom in
  let denom := denom_of widthInInch in
  let pricePerSqft := pricePerSqft_of finalPricePerUnit denom in
  {| final_price_per_unit := toFixed finalPricePerUnit 2;
     price_per_sqfoot := toFixed pricePerSqft 4;
     final_cost := toFixed finalPricePerUnit 2 |}.


(** ** The page: the elements the script looks up

    An element that the page does not contain is [None] (the script guards
    every access with [if (el)]); an input is its [value]. *)

Record option_el := {
  o_value : string;
  o_text : string;
  o_id : option string;       (* dataset.id *)
  o_label : option string;    (* dataset.label *)
  o_extra : option string;    (* dataset.extra *)
  o_type : option string;     (* dataset.type *)
  o_ct : option string        (* dataset.ct *)
}.

(** A single-choice [<select>]: its options and the selected index
    ([None] is the index [-1]). *)
Record select := {
  options : list option_el;
  selectedIndex : option nat
}.

Definition selected_option (s : select) : option option_el :=
  match selectedIndex s with
  | Some i => nth_error (options s) i
  | None => None
  end.

(** The getter [select.value]. *)
Definition select_value (s : select) : string :=
  match selected_option s with
  | Some o => o_value o
  | None => ""
  end.

Fixpoint index_of_value (v : string) (l : list option_el) (i : nat) : option nat :=
  match l with
  | [] => None
  | o :: r => if String.eqb (o_value o) v then Some i else index_of_value v r (S i)
  end.

(** The setter [select.value = v]: the first option with that value, or no
    option at all. *)
Definition set_select_value (v : string) (s : select) : select :=
  {| options := options s; selectedIndex := index_of_value v (options s) 0 |}.

Definition placeholder_option (text : string) : option_el :=
  {| o_value := ""; o_text := text; o_id := None; o_label := None;
     o_extra := None; o_type := None; o_ct := None |}.

(** [clearSelect(el, placeholder)] on an element that exists: a single
    option with an empty value, which the browser selects. *)
Definition cleared (placeholder : string) : select :=
  {| options := [placeholder_option (or_else placeholder "-- Select --")];
     selectedIndex := Some 0%nat |}.

Definition clearSelect (el : option select) (placeholder : string) : option select :=
  match el with
  | None => None
  | Some _ => Some (cleared placeholder)
  end.

Definition appendChild (s : select) (o : option_el) : select :=
  {| options := options s ++ [o]; selectedIndex := selectedIndex s |}.

Record page := {
  categoryEl : option string;
  qualityEl : option select;
  productEl : option select;
  logisticsEl : option string;
  costEl : option string;
  widthEl : option string;
  widthUomEl : option string;
  finalPriceEl : option string;
  pricePerSqftEl : option string;
  finalCostEl : option string;
  hiddenCT : option string;
  hiddenOID : option string;
  productHelp : option string;   (* #component_product_help *)
  typeEl : option string;
  nameField : option string
}.

(** [if (el) el.value = v]. *)
Definition assign (el : option string) (v : string) : option string :=
  match el with
  | None => None
  | Some _ => Some v
  end.

(** [el ? el.value || "" : ""]. *)
Definition value_or_empty (el : option string) : string :=
  match el with
  | None => ""
  | Some v => v
  end.

Definition with_selects (q p : option select) (d : page) : page :=
  {| categoryEl := categoryEl d; qualityEl := q; productEl := p;
     logisticsEl := logisticsEl d; costEl := costEl d; widthEl := widthEl d;
     widthUomEl := widthUomEl d; finalPriceEl := finalPriceEl d;
     pricePerSqftEl := pricePerSqftEl d; finalCostEl := finalCostEl d;
     hiddenCT := hiddenCT d; hiddenOID := hiddenOID d;
     productHelp := productHelp d; typeEl := typeEl d;
     nameField := nameField d |}.

Definition with_category (c : option string) (d : page) : page :=
  {| categoryEl := c; qualityEl := qualityEl d; productEl := productEl d;
     logisticsEl := logisticsEl d; costEl := costEl d; widthEl := widthEl d;
     widthUomEl := widthUomEl d; finalPriceEl := finalPriceEl d;
     pricePerSqftEl := pricePerSqftEl d; finalCostEl := finalCostEl d;
     hiddenCT := hiddenCT d; hiddenOID := hiddenOID d;
     productHelp := productHelp d; typeEl := typeEl d;
     nameField := nameField d |}.

Definition with_logistics (v : option string) (d : page) : page :=
  {| categoryEl := categoryEl d; qualityEl := qualityEl d;
     productEl := productEl d;
     logisticsEl := v; costEl := costEl d; widthEl := widthEl d;
     widthUomEl := widthUomEl d; finalPriceEl := finalPriceEl d;
     pricePerSqftEl := pricePerSqftEl d; finalCostEl := finalCostEl d;
     hiddenCT := hiddenCT d; hiddenOID := hiddenOID d;
     productHelp := productHelp d; typeEl := typeEl d;
     nameField := nameField d |}.

(** [setHidden(ct, oid, label)]. *)
Definition setHidden (ct oid label : string) (d : page) : page :=
  {| categoryEl := categoryEl d; qualityEl := qualityEl d;
     productEl := productEl d;
     logisticsEl := logisticsEl d; costEl := costEl d; widthEl := widthEl d;
     widthUomEl := widthUomEl d; finalPriceEl := finalPriceEl d;
     pricePerSqftEl := pricePerSqftEl d; finalCostEl := finalCostEl d;
     hiddenCT := assign (hiddenCT d) ct; hiddenOID := assign (hiddenOID d) oid;
     productHelp := assign (productHelp d) label; typeEl := typeEl d;
     nameField := nameField d |}.

(** The cost fields, in the order [cost, width, width_uom, final price,
    price per square foot, final cost]. *)
Definition with_costs (c w u fp ps fc : option string) (d : page) : page :=
  {| categoryEl := categoryEl d; qualityEl := qualityEl d;
     productEl := productEl d;
     logisticsEl := logisticsEl d; costEl := c; widthEl := w;
     widthUomEl := u; finalPriceEl := fp;
     pricePerSqftEl := ps; finalCostEl := fc;
     hiddenCT := hiddenCT d; hiddenOID := hiddenOID d;
     productHelp := productHelp d; typeEl := typeEl d;
     nameField := nameField d |}.

Definition with_type_name (t n : option string) (d : page) : page :=
  {| categoryEl := categoryEl d; qualityEl := qualityEl d;
     productEl := productEl d;
     logisticsEl := logisticsEl d; costEl := costEl d; widthEl := widthEl d;
     widthUomEl := widthUomEl d; finalPriceEl := finalPriceEl d;
     pricePerSqftEl := pricePerSqftEl d; finalCostEl := finalCostEl d;
     hiddenCT := hiddenCT d; hiddenOID := hiddenOID d;
     productHelp := productHelp d; typeEl := t;
     nameField := n |}.

(** ** JSON values and their conversions *)

#[warnings="-register-all"]
Inductive json :=
| JNull
| JBool (b : bool)
| JNumber (x : number)
| JString (s : string)
| JArray (items : list json)
| JObject (members : list (string * json)).


(** ToBoolean: [null], [false], [0], [NaN] and the empty string are falsy. *)
Definition js_truthy (v : json) : bool :=
  match v with
  | JNull => false
  | JBool b => b
  | JNumber (S754_zero _) | JNumber S754_nan => false
  | JNumber _ => true
  | JString s => truthy s
  | JArray _ | JObject _ => true
  end.

(** ToString, as [String(v)] and an assignment to [el.value] apply it.
    An array is its elements joined by commas, [null] elements being empty;
    an object is ["[object Object]"], unless a member named [toString]
    hides the method of [Object.prototype]: the conversion then throws a
    [TypeError], which is [None] here. *)
Fixpoint ToString (v : json) : option string :=
  match v with
  | JNull => Some "null"
  | JBool b => Some (if b then "true" else "false")
  | JNumber x => Some (Number_toString x)
  | JString s => Some s
  | JArray items =>
      (fix join (l : list json) : option string :=
         match l with
         | [] => Some ""
         | x :: r =>
             match (match x with JNull => Some "" | _ => ToString x end), r with
             | None, _ => None
             | Some a, [] => Some a
             | Some a, _ :: _ =>
                 match join r with
                 | Some b => Some (a ++ "," ++ b)
                 | None => None
                 end
             end
         end) items
  | JObject members =>
      if existsb (fun m => String.eqb (fst m) "toString") members then None
      else Some "[object Object]"
  end.

(** [v === ""]. *)
Definition is_empty_string (v : json) : bool :=
  match v with
  | JString EmptyString => true
  | _ => false
  end.

(** ** [populateFromItemResponse] *)

(** The members of an [inventory_item] response the script reads; [None]
    is a member the response does not have ([undefined]). *)
Record item_response := {
  j_cost_per_unit : option json;
  j_price : option json;
  j_width : option json;
  j_width_uom : option json;
  j_final_price_per_unit : option json;
  j_price_per_sqfoot : option json;
  j_final_cost : option json;
  j_type : option json;
  j_label : option json
}.

(** A field of a [results] row: [v || ""] on what the row holds as a
    string. *)
Definition field_or_empty (f : option string) : string :=
  match f with
  | Some v => v
  | None => ""
  end.

(** The member when it is truthy. *)
Definition truthy_member (f : option json) : option json :=
  match f with
  | Some v => if js_truthy v then Some v else None
  | None => None
  end.

(** [json.f || rest]. *)
Definition member_or (f : option json) (rest : json) : json :=
  match truthy_member f with
  | Some v => v
  | None => rest
  end.

(** [if (el && (!el.value || el.value === "")) el.value = v]. *)
Definition fill_if_empty (el : option string) (v : string) : option string :=
  match el with
  | Some cur => if truthy cur then el else Some v
  | None => None
  end.

(** [qualityName && typeName ? `${qualityName} ${typeName}` : typeName || qualityName]. *)
Definition auto_name (qualityName typeName : string) : string :=
  if (truthy qualityName && truthy typeName)%bool
  then qualityName ++ " " ++ typeName
  else or_else typeName qualityName.

Definition quality_value (d : page) : string :=
  match qualityEl d with
  | Some q => select_value q
  | None => ""
  end.

(** How the function ends, and the page it leaves: it returns, or a
    [TypeError] leaves it where it stood (the promise of the [async]
    function is then rejected). *)
Inductive outcome :=
| Returned (d : page)
| Threw (d : page).

Definition and_then (o : outcome) (k : page -> outcome) : outcome :=
  match o with
  | Returned d => k d
  | Threw d => Threw d
  end.

Definition set_cost (v : option string) (d : page) : page :=
  with_costs v (widthEl d) (widthUomEl d) (finalPriceEl d) (pricePerSqftEl d)
    (finalCostEl d) d.
Definition set_width (v : option string) (d : page) : page :=
  with_costs (costEl d) v (widthUomEl d) (finalPriceEl d) (pricePerSqftEl d)
    (finalCostEl d) d.
Definition set_widthUom (v : option string) (d : page) : page :=
  with_costs (costEl d) (widthEl d) v (finalPriceEl d) (pricePerSqftEl d)
    (finalCostEl d) d.
Definition set_finalPrice (v : option string) (d : page) : page :=
  with_costs (costEl d) (widthEl d) (widthUomEl d) v (pricePerSqftEl d)
    (finalCostEl d) d.
Definition set_pricePerSqft (v : option string) (d : page) : page :=
  with_costs (costEl d) (widthEl d) (widthUomEl d) (finalPriceEl d) v
    (finalCostEl d) d.
Definition set_finalCost (v : option string) (d : page) : page :=
  with_costs (costEl d) (widthEl d) (widthUomEl d) (finalPriceEl d)
    (pricePerSqftEl d) v d.

(** [if (el && v !== "") el.value = v]: the element takes the string of
    [v]. *)
Definition put (get : page -> option string) (set : option string -> page -> page)
    (v : json) (d : page) : outcome :=
  match get d with
  | None => Returned d
  | Some _ =>
      if is_empty_string v then Returned d
      else match ToString v with
           | Some s => Returned (set (Some s) d)
           | None => Threw d
           end
  end.

(** The [if (typeEl) { ... }] block. *)
Definition put_type (json : item_response) (d : page) : outcome :=
  match typeEl d with
  | None => Returned d
  | Some _ =>
      let set t := with_type_name (Some t) (nameField d) d in
      match truthy_member (j_type json), truthy_member (j_label json) with
      | Some v, _ | None, Some v =>
          match ToString v with
          | Some s => Returned (set s)
          | None => Threw d
          end
      | None, None =>
          Returned (set (if truthy (value_or_empty (hiddenOID d))
                         then "Type #" ++ value_or_empty (hiddenOID d)
                         else ""))
      end
  end.

(** The call [computeClientMetrics(cost || "", width || "", width_uom || "inch", ...)]
    with JSON values: [parseNum] takes [String(v)] of the price and of the
    width, and [toLowerCase] exists on a string only, so that any other
    width unit throws a [TypeError] ([None]). *)
Definition call_computeClientMetrics (cost width width_uom : json) (logistics : string)
  : option metrics :=
  match ToString cost, ToString width, width_uom with
  | Some c, Some w, JString u => Some (computeClientMetrics c w u logistics)
  | _, _, _ => None
  end.

Definition populateFromItemResponse (json : option item_response) (d : page) : outcome :=
  match json with
  | None => Returned d
  | Some json =>
      let cost := member_or (j_cost_per_unit json) (member_or (j_price json) (JString "")) in
      let width := member_or (j_width json) (JString "") in
      let width_uom := member_or (j_width_uom json) (JString "inch") in
      let final_price_server := member_or (j_final_price_per_unit json) (JString "") in
      let price_per_sqft_server := member_or (j_price_per_sqfoot json) (JString "") in
      let final_cost_server := member_or (j_final_cost json) (JString "") in
      and_then (put costEl set_cost cost d) (fun d =>
      and_then (put widthEl set_width width d) (fun d =>
      and_then (put widthUomEl set_widthUom width_uom d) (fun d =>
      and_then (put finalPriceEl set_finalPrice final_price_server d) (fun d =>
      and_then (put pricePerSqftEl set_pricePerSqft price_per_sqft_server d) (fun d =>
      and_then (put finalCostEl set_finalCost final_cost_server d) (fun d =>
      and_then (put_type json d) (fun d =>
        let qualityName := trim (quality_value d) in
        let typeName := trim (value_or_empty (typeEl d)) in
        let d := with_type_name (typeEl d)
                   (assign (nameField d) (auto_name qualityName typeName)) d in
        match call_computeClientMetrics cost width width_uom
                (match logisticsEl d with
                 | Some v => or_else v "0"
                 | None => "0"
                 end) with
        | None => Threw d
        | Some clientMetrics =>
            Returned
              (with_costs (costEl d) (widthEl d) (widthUomEl d)
                 (fill_if_empty (finalPriceEl d) (final_price_per_unit clientMetrics))
                 (fill_if_empty (pricePerSqftEl d) (price_per_sqfoot clientMetrics))
                 (fill_if_empty (finalCostEl d) (final_cost clientMetrics)) d)
        end)))))))
  end.


(** ** The category / quality / product chain *)

(** A row of a [results] array; a field is [None] when it is [undefined]
    or [null], and [String(...)] of the others is the string itself. *)
Record row := {
  r_id : option string;
  r_value : option string;
  r_label : option string;
  r_label_text : option string;
  r_extra : option string;
  r_type : option string;
  r_content_type_id : option string;
  r_content_type : option string;
  r_ct : option string
}.

(** [if (s) dataset.k = s]. *)
Definition when_truthy (s : string) : option string :=
  if truthy s then Some s else None.

(** [value]: the row's value, else its id, else its label. *)
Definition row_value (r : row) : string :=
  match r_value r with
  | Some v => v
  | None => or_else (field_or_empty (r_id r)) (field_or_empty (r_label r))
  end.

(** The option [loadQualitiesByCategory] builds from a row. *)
Definition quality_option (r : row) : option_el :=
  let id := field_or_empty (r_id r) in
  let value := row_value r in
  let label :=
    match r_label r, r_label_text r with
    | Some l, _ => l
    | None, Some t => t
    | None, None => or_else id value
    end in
  {| o_value := value; o_text := label;
     o_id := when_truthy id; o_label := when_truthy label;
     o_extra := r_extra r; o_type := None; o_ct := None |}.

(** The option [loadTypesByQuality] builds from a row. *)
Definition type_option (r : row) : option_el :=
  let id := field_or_empty (r_id r) in
  let value := row_value r in
  let hash_id := if truthy id then "#" ++ id else value in
  let rawType := match r_type r with Some t => trim t | None => "" end in
  let label :=
    match r_label r with
    | Some l => trim l
    | None => or_else rawType hash_id
    end in
  let ctVal := or_else (field_or_empty (r_content_type_id r))
                 (or_else (field_or_empty (r_content_type r))
                          (field_or_empty (r_ct r))) in
  {| o_value := value;
     o_text := if truthy rawType then rawType
               else if truthy label then label else hash_id;
     o_id := when_truthy id; o_label := when_truthy label;
     o_extra := None;
     o_type := Some (if truthy rawType then rawType
                     else if truthy label then label else "");
     o_ct := Some (if truthy (trim ctVal) then ctVal else "") |}.

(** The requests of the chain, with the parameters they carry. *)
Inductive request :=
| qualities_by_category (category : string)
| types_by_quality (category quality q : string)
| inventory_item (content_type_id object_id quality logistics_percent : string).

(** The endpoints configured in [COMPONENT_FORM_CONFIG.urls]; [true] when
    the URL is present. *)
Record urls := {
  url_qualities_by_category : bool;
  url_types_by_quality : bool;
  url_inventory_item : bool
}.

(** A loader suspended at its [await safeFetch(...)], with the variables it
    captured.  [sent] tells whether a request left the page: with no URL
    configured [safeFetch] rejects at once and nothing is sent. *)
Inductive pending :=
| await_qualities (prevSelected : string)
| await_types (prevSelected : string)
| await_item.

(** What comes back: a rejection, or a JSON body seen as a [results] array
    and as an item. *)
Inductive reply :=
| Failed
| Json (results : list row) (item : item_response).

Record world := {
  dom : page;
  cfg : urls;
  next_id : nat;
  inflight : list (nat * (pending * bool));
  requests : list request      (* every request sent so far, oldest first *)
}.

Definition with_dom (d : page) (w : world) : world :=
  {| dom := d; cfg := cfg w; next_id := next_id w; inflight := inflight w;
     requests := requests w |}.

(** Calling [safeFetch(url, params)] and suspending on it: the request is
    sent when the URL is configured. *)
Definition suspend (configured : bool) (k : pending) (r : request) (w : world) : world :=
  {| dom := dom w; cfg := cfg w; next_id := S (next_id w);
     inflight := inflight w ++ [(next_id w, (k, configured))];
     requests := if configured then requests w ++ [r] else requests w |}.

(** [loadQualitiesByCategory(category)] up to its [await]. *)
Definition loadQualitiesByCategory (category : string) (w : world) : world :=
  let d := dom w in
  match qualityEl d with
  | None => w
  | Some q =>
      let prevSelected := select_value q in
      let d1 := setHidden "" "" ""
                  (with_selects (Some (cleared "-- Loading qualities... --"))
                     (clearSelect (productEl d) "-- Select type after quality --") d) in
      if truthy category then
        suspend (url_qualities_by_category (cfg w)) (await_qualities prevSelected)
          (qualities_by_category category) (with_dom d1 w)
      else
        with_dom (with_selects (Some (cleared "-- Select category first --"))
                    (productEl d1) d1) w
  end.

(** [loadTypesByQuality(category, quality, search_q)] up to its [await]. *)
Definition loadTypesByQuality (category quality search_q : string) (w : world) : world :=
  let d := dom w in
  match productEl d with
  | None => w
  | Some p =>
      let prevSelected := select_value p in
      let d1 := setHidden "" "" ""
                  (with_selects (qualityEl d)
                     (Some (cleared "-- Loading product types... --")) d) in
      if (truthy category && truthy quality)%bool then
        suspend (url_types_by_quality (cfg w)) (await_types prevSelected)
          (types_by_quality category quality search_q) (with_dom d1 w)
      else
        with_dom (with_selects (qualityEl d1)
                    (Some (cleared "-- Select quality first --")) d1) w
  end.

(** The [forEach] that empties the cost fields, then the type and the name. *)
Definition clear_costs (d : page) : page :=
  with_type_name (assign (typeEl d) "") (assign (nameField d) "")
    (with_costs (assign (costEl d) "") (assign (widthEl d) "")
       (assign (widthUomEl d) "") (assign (finalPriceEl d) "")
       (assign (pricePerSqftEl d) "") (assign (finalCostEl d) "") d).

(** The [change] listener of the category select; [value] is
    [ev.target.value || ""]. *)
Definition on_category_change (value : string) (w : world) : world :=
  let category := toUpperCase value in
  let w1 := loadQualitiesByCategory category w in
  let d := dom w1 in
  with_dom
    (clear_costs
       (setHidden "" "" ""
          (with_selects (qualityEl d) (clearSelect (productEl d) "-- Select quality first --") d)))
    w1.

(** The [change] listener of the quality select. *)
Definition on_quality_change (value : string) (w : world) : world :=
  let q := value in
  let category := match categoryEl (dom w) with
                  | Some c => toUpperCase c
                  | None => ""
                  end in
  let w1 := loadTypesByQuality category q "" w in
  let d := dom w1 in
  with_dom
    (clear_costs
       (setHidden "" "" ""
          (with_selects (qualityEl d) (clearSelect (productEl d) "-- Loading product types --") d)))
    w1.

(** The [change] listener of the product select, up to its first [await]. *)
Definition on_product_change (w : world) : world :=
  let d := dom w in
  match productEl d with
  | None => w
  | Some p =>
      let opt := selected_option p in
      let oid := select_value p in
      let ct := match opt with
                | Some o => field_or_empty (o_ct o)
                | None => ""
                end in
      let label := match opt with
                   | Some o => or_else (field_or_empty (o_label o)) (o_text o)
                   | None => ""
                   end in
      let optType := match opt with
                     | Some o => field_or_empty (o_type o)
                     | None => ""
                     end in
      let w1 := with_dom (setHidden ct oid (or_else optType label) d) w in
      if (truthy ct && truthy oid)%bool then
        suspend (url_inventory_item (cfg w)) await_item
          (inventory_item ct oid (quality_value d)
             (value_or_empty (logisticsEl d))) w1
      else w1
  end.

(** The [input] listener of the logistics field. *)
Definition on_logistics_input (w : world) : world :=
  let d := dom w in
  match logisticsEl d with
  | None => w
  | Some lv =>
      let price := value_or_empty (costEl d) in
      let width := value_or_empty (widthEl d) in
      let widthUom := or_else (value_or_empty (widthUomEl d)) "inch" in
      let logistics := or_else lv "0" in
      let metrics := computeClientMetrics price width widthUom logistics in
      with_dom
        (with_costs (costEl d) (widthEl d) (widthUomEl d)
           (assign (finalPriceEl d) (final_price_per_unit metrics))
           (assign (pricePerSqftEl d) (price_per_sqfoot metrics))
           (assign (finalCostEl d) (final_cost metrics)) d) w
  end.

(** What a loader does when its [await] settles. *)

(** [prevSelected] is restored and a [change] event dispatched, which runs
    the listener at once. *)
Definition resume_qualities (prevSelected : string) (sent : bool) (r : reply) (w : world) : world :=
  let d := dom w in
  match qualityEl d with
  | None => w
  | Some _ =>
      match (if sent then r else Failed) with
      | Failed =>
          with_dom (with_selects (Some (cleared "-- Error loading qualities --"))
                      (productEl d) d) w
      | Json [] _ =>
          with_dom (with_selects (Some (cleared "-- No qualities found --"))
                      (productEl d) d) w
      | Json results _ =>
          let q := fold_left appendChild (map quality_option results)
                     (cleared "-- Select quality --") in
          if truthy prevSelected then
            let q' := set_select_value prevSelected q in
            on_quality_change (select_value q')
              (with_dom (with_selects (Some q') (productEl d) d) w)
          else with_dom (with_selects (Some q) (productEl d) d) w
      end
  end.

Definition resume_types (prevSelected : string) (sent : bool) (r : reply) (w : world) : world :=
  let d := dom w in
  match productEl d with
  | None => w
  | Some _ =>
      match (if sent then r else Failed) with
      | Failed =>
          with_dom (with_selects (qualityEl d)
                      (Some (cleared "-- Error loading types --")) d) w
      | Json [] _ =>
          with_dom (with_selects (qualityEl d)
                      (Some (cleared "-- No types found --")) d) w
      | Json results _ =>
          let p := fold_left appendChild (map type_option results)
                     (cleared "-- Select type --") in
          if truthy prevSelected then
            on_product_change
              (with_dom (with_selects (qualityEl d)
                           (Some (set_select_value prevSelected p)) d) w)
          else with_dom (with_selects (qualityEl d) (Some p) d) w
      end
  end.

(** [fetchInventoryItem] turns a failure into [null]; the listener then
    populates the fields and sets the name, unless
    [await populateFromItemResponse(json)] throws, which ends the listener.
    (The colours it loads next belong to another widget.) *)
Definition resume_item (sent : bool) (r : reply) (w : world) : world :=
  let json := match (if sent then r else Failed) with
              | Failed => None
              | Json _ item => Some item
              end in
  match populateFromItemResponse json (dom w) with
  | Threw d => with_dom d w
  | Returned d =>
      let qualityVal := trim (quality_value d) in
      let typeVal := trim (value_or_empty (typeEl d)) in
      with_dom (with_type_name (typeEl d)
                  (assign (nameField d) (auto_name qualityVal typeVal)) d) w
  end.

Definition resume (k : pending) (sent : bool) (r : reply) (w : world) : world :=
  match k with
  | await_qualities prev => resume_qualities prev sent r w
  | await_types prev => resume_types prev sent r w
  | await_item => resume_item sent r w
  end.

Fixpoint take_inflight (id : nat) (l : list (nat * (pending * bool)))
  : option ((pending * bool) * list (nat * (pending * bool))) :=
  match l with
  | [] => None
  | (i, k) :: r =>
      if Nat.eqb i id then Some (k, r)
      else match take_inflight id r with
           | Some (k', r') => Some (k', (i, k) :: r')
           | None => None
           end
  end.

(** What happens on the page, one event-loop turn at a time. *)
Inductive event :=
| CategoryChange (value : string)
| QualityChange (value : string)
| ProductChange (value : string)
| LogisticsInput (value : string)
| Settle (id : nat) (r : reply).

Definition step (w : world) (e : event) : world :=
  match e with
  | CategoryChange v =>
      match categoryEl (dom w) with
      | None => w
      | Some _ => on_category_change v (with_dom (with_category (Some v) (dom w)) w)
      end
  | QualityChange v =>
      match qualityEl (dom w) with
      | None => w
      | Some q =>
          let q' := set_select_value v q in
          on_quality_change (select_value q')
            (with_dom (with_selects (Some q') (productEl (dom w)) (dom w)) w)
      end
  | ProductChange v =>
      match productEl (dom w) with
      | None => w
      | Some p =>
          on_product_change
            (with_dom (with_selects (qualityEl (dom w))
                         (Some (set_select_value v p)) (dom w)) w)
      end
  | LogisticsInput v =>
      match logisticsEl (dom w) with
      | None => w
      | Some _ => on_logistics_input (with_dom (with_logistics (Some v) (dom w)) w)
      end
  | Settle id r =>
      match take_inflight id (inflight w) with
      | None => w
      | Some ((k, sent), rest) =>
          resume k sent r
            {| dom := dom w; cfg := cfg w; next_id := next_id w;
               inflight := rest; requests := requests w |}
      end
  end.

Definition run (w : world) (es : list event) : world := fold_left step es w.


(** ** [safeFetch]: the Remote Lookup Client *)

Record response := {
  ok : bool;
  status : N;
  statusText : string;
  text : option string      (* [None] when [res.text()] rejects *)
}.

(** What [e.body] holds. *)
Inductive error_body :=
| BodyJson (j : json)
| BodyText (t : string).

(** An [Error] with the properties the script sets on it. *)
Record js_error := {
  message : string;
  e_status : option N;
  e_body : option error_body
}.

Definition plain_error (msg : string) : js_error :=
  {| message := msg; e_status := None; e_body := None |}.

(** A statement list either completes or throws. *)
Inductive completion (A : Type) :=
| Normal (a : A)
| Throw (e : js_error).
Arguments Normal {A} a.
Arguments Throw {A} e.

Definition bind {A B : Type} (c : completion A) (k : A -> completion B) : completion B :=
  match c with
  | Normal a => k a
  | Throw e => Throw e
  end.

(** [try { body } catch (e) { handler }]. *)
Definition try_catch {A : Type} (body : completion A) (handler : js_error -> completion A)
  : completion A :=
  match body with
  | Normal a => Normal a
  | Throw e => handler e
  end.

(** How a promise settles. *)
Inductive settled (A : Type) :=
| Fulfilled (a : A)
| Rejected (e : js_error).
Arguments Fulfilled {A} a.
Arguments Rejected {A} e.

(** Calling an [async function]: the call itself completes normally with a
    promise, which the body's completion settles. *)
Definition async {A : Type} (body : completion A) : completion (settled A) :=
  Normal (match body with
          | Normal a => Fulfilled a
          | Throw e => Rejected e
          end).

(** [await p] inside an [async] body. *)
Definition await {A : Type} (p : settled A) : completion A :=
  match p with
  | Fulfilled a => Normal a
  | Rejected e => Throw e
  end.

Record fetch_options := {
  fo_method : string;
  fo_credentials : string;
  fo_headers : list (string * string);
  fo_body : option string
}.

Record safeFetch_opts := {
  opt_method : string;        (* [opts.method || "GET"]: empty when absent *)
  opt_contentType : string
}.

Section SafeFetch.

(** The environment: the network, the page's token, and the encoders and
    the parser of the runtime. *)
Variable fetch : string -> fetch_options -> settled response.
Variable CSRF_TOKEN : string.
Variable URLSearchParams_toString : list (string * string) -> string.
Variable JSON_stringify : list (string * string) -> string.
Variable JSON_parse : string -> option json.

Definition unsafe_methods : list string := ["POST"; "PUT"; "PATCH"; "DELETE"].

Definition status_message (res : response) : string :=
  "Fetch " ++ dec_string (status res) ++ " " ++ statusText res.

(** [JSON.parse(text)], which throws a [SyntaxError] on other texts. *)
Definition parse_or_throw (t : string) : completion json :=
  match JSON_parse t with
  | Some j => Normal j
  | None => Throw (plain_error "SyntaxError")
  end.

(** The part of [safeFetch] after [const text = await res.text().catch(() => "")]. *)
Definition read_response (res : response) (text : string) : completion json :=
  try_catch
    (bind (if truthy text then parse_or_throw text else Normal (JObject []))
       (fun json =>
          if negb (ok res) then
            Throw {| message := status_message res;
                     e_status := Some (status res);
                     e_body := Some (BodyJson json) |}
          else Normal json))
    (fun parseErr =>
       if negb (ok res) then
         Throw {| message := status_message res;
                  e_status := Some (status res);
                  e_body := Some (BodyText text) |}
       else Normal (JObject [("raw", JString text)])).

Definition safeFetch_body (url : string) (params : list (string * string))
    (opts : safeFetch_opts) : completion json :=
  if negb (truthy url) then Throw (plain_error "URL not configured")
  else
    let method := toUpperCase (or_else (opt_method opts) "GET") in
    let headers := [("Accept", "application/json")] in
    let headers :=
      if includes unsafe_methods method
      then (headers ++ [("X-CSRFToken", CSRF_TOKEN)])%list else headers in
    let '(fullUrl, fetchOpts) :=
      if String.eqb method "GET" then
        let q := URLSearchParams_toString params in
        (url ++ (if truthy q then "?" ++ q else ""),
         {| fo_method := method; fo_credentials := "same-origin";
            fo_headers := headers; fo_body := None |})
      else if String.eqb (opt_contentType opts) "json" then
        (url,
         {| fo_method := method; fo_credentials := "same-origin";
            fo_headers := (headers ++ [("Content-Type", "application/json")])%list;
            fo_body := Some (JSON_stringify params) |})
      else
        (url,
         {| fo_method := method; fo_credentials := "same-origin";
            fo_headers := (headers ++
              [("Content-Type", "application/x-www-form-urlencoded;charset=UTF-8")])%list;
            fo_body := Some (URLSearchParams_toString params) |}) in
    bind (await (fetch fullUrl fetchOpts)) (fun res =>
      let text := match text res with
                  | Some t => t
                  | None => ""
                  end in
      read_response res text).

Definition safeFetch (url : string) (params : list (string * string))
    (opts : safeFetch_opts) : completion (settled json) :=
  async (safeFetch_body url params opts).

End SafeFetch.

(** ** Statements and scenarios *)

(** [+(x).toFixed(f)]: [x] rounded to [f] decimal places, as a number. *)
Definition round_to (x : number) (f : nat) : number := Number (toFixed x f).

(** The calculator's property as the specification words it (C1): for a
    width above zero, the final cost is the final price per unit, both are
    the price with the logistics mark-up rounded to two decimals, and the
    price per square foot is not below zero. *)
Definition C1_claim (p w u l : string) : Prop :=
  gt (parseNum w) pzero = true ->
  let m := computeClientMetrics p w u l in
  final_cost m = final_price_per_unit m /\
  final_price_per_unit m =
    toFixed (round_to (mul (parseNum p) (add one (div (parseNum l) lit_100))) 2) 2 /\
  le pzero (Number (price_per_sqfoot m)) = true.

(** The text of a field is numeric and not negative: read back, it is a
    finite number that is not below zero. *)
Definition numeric_nonneg (s : string) : Prop :=
  isFinite (Number s) = true /\ le pzero (Number s) = true.

(** The specification's invariant of the derived fields (C9): every value
    the calculator produces is numeric and not negative. *)
Definition C9_claim (p w u l : string) : Prop :=
  let m := computeClientMetrics p w u l in
  numeric_nonneg (final_price_per_unit m) /\
  numeric_nonneg (price_per_sqfoot m) /\
  numeric_nonneg (final_cost m).

(** A width of [10^-320], written out: [0.00...01]. *)
Definition tiny_width : string := "0." ++ zeros 319 ++ "1".

(** The call of the calculator in [populateFromItemResponse]: [None] when
    it throws. *)
Definition local_metrics (json : item_response) (d : page) : option metrics :=
  call_computeClientMetrics
    (member_or (j_cost_per_unit json) (member_or (j_price json) (JString "")))
    (member_or (j_width json) (JString ""))
    (member_or (j_width_uom json) (JString "inch"))
    (match logisticsEl d with
     | Some v => or_else v "0"
     | None => "0"
     end).

(** A member the server supplied with a value: present, and neither [null]
    nor the empty string. *)
Definition supplied (f : option json) : option json :=
  match f with
  | None | Some JNull | Some (JString EmptyString) => None
  | Some v => Some v
  end.

(** A derived field after the response, as the specification has it: the
    server's value when it supplied one, else the local one. *)
Definition server_or_local (server : option json) (local : string) : option string :=
  match supplied server with
  | Some v => ToString v
  | None => Some local
  end.

(** The precedence policy as the specification words it (C3): the response
    is processed without an error, and afterwards each derived field that
    exists holds the server's value, or the local one where the server
    left it blank. *)
Definition C3_claim (json : item_response) (d : page) : Prop :=
  exists d' m,
    populateFromItemResponse (Some json) d = Returned d' /\
    local_metrics json d = Some m /\
    (finalPriceEl d <> None ->
       finalPriceEl d' =
         server_or_local (j_final_price_per_unit json) (final_price_per_unit m)) /\
    (pricePerSqftEl d <> None ->
       pricePerSqftEl d' =
         server_or_local (j_price_per_sqfoot json) (price_per_sqfoot m)) /\
    (finalCostEl d <> None ->
       finalCostEl d' = server_or_local (j_final_cost json) (final_cost m)).

(** A page with every element, all of them empty. *)
Definition empty_page : page :=
  {| categoryEl := Some ""; qualityEl := Some (cleared "");
     productEl := Some (cleared ""); logisticsEl := Some "";
     costEl := Some ""; widthEl := Some ""; widthUomEl := Some "";
     finalPriceEl := Some ""; pricePerSqftEl := Some ""; finalCostEl := Some "";
     hiddenCT := Some ""; hiddenOID := Some ""; productHelp := Some "";
     typeEl := Some ""; nameField := Some "" |}.

(** A page whose final-price field still shows the price of the previous
    product, and a response that gives a cost and a width only. *)
Definition stale_page : page :=
  with_costs (Some "10") (Some "58") (Some "inch")
             (Some "10.00") (Some "7.2631") (Some "10.00") empty_page.


(** A response with numbers: a cost of 12.5, a width of 58, a final price
    of 0 and a final cost of 13.75. *)
Definition numeric_response : item_response :=
  {| j_cost_per_unit := Some (JNumber (Number "12.5")); j_price := None;
     j_width := Some (JNumber (Number "58")); j_width_uom := None;
     j_final_price_per_unit := Some (JNumber pzero);
     j_price_per_sqfoot := None;
     j_final_cost := Some (JNumber (Number "13.75"));
     j_type := None; j_label := Some (JString "Linen") |}.

(** A response whose width unit is a number. *)
Definition numeric_unit_response : item_response :=
  {| j_cost_per_unit := Some (JString "20"); j_price := None;
     j_width := Some (JString "58"); j_width_uom := Some (JNumber one);
     j_final_price_per_unit := None;
     j_price_per_sqfoot := None; j_final_cost := None;
     j_type := None; j_label := None |}.












(** The options of the product select. *)
Definition product_options (w : world) : option (list option_el) :=
  match productEl (dom w) with
  | Some p => Some (options p)
  | None => None
  end.

(** The options [loadTypesByQuality] shows for a non-empty [results]. *)
Definition rendered (rows : list row) : list option_el :=
  placeholder_option "-- Select type --" :: map type_option rows.

(** Selection [A] and then [B] at the quality level, [A]'s load being in
    flight when [B] is selected, and the two responses in either order. *)
Definition in_order (w : world) (A B : string) (rowsA rowsB : list row)
    (item : item_response) : list event :=
  [QualityChange A; QualityChange B;
   Settle (next_id w) (Json rowsA item); Settle (S (next_id w)) (Json rowsB item)].

Definition out_of_order (w : world) (A B : string) (rowsA rowsB : list row)
    (item : item_response) : list event :=
  [QualityChange A; QualityChange B;
   Settle (S (next_id w)) (Json rowsB item); Settle (next_id w) (Json rowsA item)].

(** The ordering property as the specification words it (C4): whichever
    response arrives first, the options end as those of [B]. *)
Definition C4_claim (w : world) (A B : string) (rowsA rowsB : list row)
    (item : item_response) : Prop :=
  product_options (run w (in_order w A B rowsA rowsB item)) = Some (rendered rowsB) /\
  product_options (run w (out_of_order w A B rowsA rowsB item)) = Some (rendered rowsB).

Definition quality_row (id label : string) : row :=
  {| r_id := Some id; r_value := None; r_label := Some label;
     r_label_text := None; r_extra := None; r_type := None;
     r_content_type_id := None; r_content_type := None; r_ct := None |}.

Definition type_row (id type ct : string) : row :=
  {| r_id := Some id; r_value := None; r_label := None;
     r_label_text := None; r_extra := None; r_type := Some type;
     r_content_type_id := Some ct; r_content_type := None; r_ct := None |}.

Definition no_item : item_response :=
  {| j_cost_per_unit := None; j_price := None; j_width := None;
     j_width_uom := None; j_final_price_per_unit := None;
     j_price_per_sqfoot := None; j_final_cost := None;
     j_type := None; j_label := None |}.

(** A page with category FABRIC chosen and two qualities to choose from. *)
Definition fabric_page : page :=
  {| categoryEl := Some "fabric";
     qualityEl := Some (fold_left appendChild
                          (map quality_option [quality_row "1" "Premium";
                                               quality_row "2" "Standard"])
                          (cleared "-- Select quality --"));
     productEl := Some (cleared "-- Select quality first --");
     logisticsEl := Some "0";
     costEl := Some ""; widthEl := Some ""; widthUomEl := Some "";
     finalPriceEl := Some ""; pricePerSqftEl := Some ""; finalCostEl := Some "";
     hiddenCT := Some ""; hiddenOID := Some ""; productHelp := Some "";
     typeEl := Some ""; nameField := Some "" |}.

Definition fabric_world : world :=
  {| dom := fabric_page;
     cfg := {| url_qualities_by_category := true; url_types_by_quality := true;
               url_inventory_item := true |};
     next_id := 0; inflight := []; requests := [] |}.

Definition premium_types : list row := [type_row "10" "Premium Linen" "7"].
Definition standard_types : list row := [type_row "20" "Standard Linen" "7"].


(** The page is ready for a selection at the quality level: a category is
    chosen, the three selects exist and the endpoint is configured. *)
Record ready (w : world) : Prop := {
  ready_category : exists c, categoryEl (dom w) = Some c /\ truthy (toUpperCase c) = true;
  ready_quality : qualityEl (dom w) <> None;
  ready_product : productEl (dom w) <> None;
  ready_url : url_types_by_quality (cfg w) = true
}.

(** [v] is one of the values the quality select offers. *)
Definition offers (w : world) (v : string) : Prop :=
  truthy v = true /\
  exists q, qualityEl (dom w) = Some q /\ select_value (set_select_value v q) = v.

(** The identifiers in flight are below the next one. *)
Definition fresh (w : world) : Prop :=
  forall i k, In (i, k) (inflight w) -> (i < next_id w)%nat.

(** Listeners and resumed loaders keep the product select and only add to
    what is in flight. *)
Definition grows (w w' : world) : Prop :=
  (productEl (dom w) <> None -> productEl (dom w') <> None) /\
  exists extra, inflight w' = (inflight w ++ extra)%list.

(** A concrete exchange: creating a colour that exists already is answered
    with 400 and a JSON object naming the error. *)
Definition dq : string := String (ascii_of_N 34) "".

Definition error_text : string :=
  "{" ++ dq ++ "error" ++ dq ++ ":" ++ dq ++ "Color exists" ++ dq ++ "}".

Definition error_object : json := JObject [("error", JString "Color exists")].

Definition bad_request : response :=
  {| ok := false; status := 400; statusText := "Bad Request";
     text := Some error_text |}.

Definition parse_error_text (s : string) : option json :=
  if String.eqb s error_text then Some error_object else None.

(** Further vocabulary for the properties of the chain. *)

(** The element is on the page. *)
Definition present {A : Type} (el : option A) : bool :=
  match el with
  | Some _ => true
  | None => false
  end.

(** The category the quality listener reads:
    [(categoryEl && categoryEl.value || "").toUpperCase()]. *)
Definition category_of (d : page) : string :=
  match categoryEl d with
  | Some c => toUpperCase c
  | None => ""
  end.

(** A load that ends in its [catch]: the request was never sent (no URL),
    or it failed. *)
Definition rejected (sent : bool) (r : reply) : bool :=
  match sent, r with
  | true, Json _ _ => false
  | _, _ => true
  end.

(** A load that brings no rows: it was rejected, or its [results] are
    empty. *)
Definition no_rows (sent : bool) (r : reply) : bool :=
  match sent, r with
  | true, Json (_ :: _) _ => false
  | _, _ => true
  end.


End ComponentForm.

(* ================================================================== *)
(** * The costing sheet script: colours and SKU previews *)
(* ================================================================== *)

Module Costing.
Import JS.

(** A colour checkbox: [input[name="colors[]"]] with its [value], its
    [dataset.colorName] and whether it is checked. *)
Record checkbox := {
  cb_value : string;
  cb_colorName : string;      (* empty when the attribute is absent *)
  cb_checked : bool
}.

(** What [#sku-preview-list] shows. *)
Inductive preview :=
| NoColorsSelected
| GeneratingPreviews
| PreviewLines (lines : list string)
| PreviewFailed.

Record page := {
  colorsContainer : option (list checkbox);     (* #component-colors *)
  colorSelect : option (string * string);       (* #id_color_select: value, selected text *)
  legacyColorField : option string;             (* #id_color: its style.display *)
  skuPreviewList : option preview;              (* #sku-preview-list *)
  skuInput : option string                      (* #id_sku: its value *)
}.

(** [cfg.ajax_compute_sku] after [parseConfig]: the configured URL, or the
    default. *)
Definition default_compute_sku : string := "/costing/ajax/compute-sku/".

Definition parseConfig_compute_sku (configured : string) : string :=
  or_else configured default_compute_sku.

(** A call of [fetchSkuForColor(colorId, colorName)]. *)
Record sku_call := {
  colorId : string;
  colorName : string
}.

(** What such a call resolves with. *)
Record sku_result := {
  res_colorId : string;
  res_colorName : string;
  sku : string
}.

(** The server's answer for a colour: [payload.sku] when the request
    succeeds and the payload holds a string there, [None] otherwise. *)
Definition answers := string -> option string.

(** [fetchSkuForColor]: with no endpoint it resolves at once with an empty
    SKU; a failed request or a payload without a string resolves with an
    empty SKU too. *)
Definition fetchSkuForColor (url : string) (server : answers) (c : sku_call) : sku_result :=
  {| res_colorId := colorId c; res_colorName := colorName c;
     sku := if truthy url
            then match server (colorId c) with
                 | Some s => s
                 | None => ""
                 end
            else "" |}.

Definition checked_boxes (boxes : list checkbox) : list checkbox :=
  filter cb_checked boxes.

(** [checked.map(ch => fetchSkuForColor(ch.value, ch.dataset.colorName || ch.value))]:
    the calls, in document order. *)
Definition calls_for (boxes : list checkbox) : list sku_call :=
  map (fun ch => {| colorId := cb_value ch;
                    colorName := or_else (cb_colorName ch) (cb_value ch) |})
      (checked_boxes boxes).

(** What [updateSkuPreviews] leaves pending when it returns. *)
Inductive pending :=
| NothingPending
| SinglePending (c : sku_call)          (* the [then] of the single-select branch *)
| AllPending (cs : list sku_call).      (* the [then] of [Promise.all] *)

Definition assign (el : option string) (v : string) : option string :=
  match el with
  | None => None
  | Some _ => Some v
  end.

Definition set_preview (el : option preview) (v : preview) : option preview :=
  match el with
  | None => None
  | Some _ => Some v
  end.

Definition with_preview (pv : option preview) (sk : option string) (lg : option string)
    (p : page) : page :=
  {| colorsContainer := colorsContainer p; colorSelect := colorSelect p;
     legacyColorField := lg; skuPreviewList := pv; skuInput := sk |}.

(** [updateSkuPreviews], up to the point where it returns. *)
Definition updateSkuPreviews (p : page) : page * pending :=
  match colorsContainer p with
  | None =>
      match colorSelect p with
      | Some (value, selectedText) =>
          if truthy value
          then (p, SinglePending {| colorId := value; colorName := selectedText |})
          else (with_preview (set_preview (skuPreviewList p) NoColorsSelected)
                  (skuInput p) (legacyColorField p) p, NothingPending)
      | None =>
          (with_preview (set_preview (skuPreviewList p) NoColorsSelected)
             (skuInput p) (legacyColorField p) p, NothingPending)
      end
  | Some boxes =>
      match calls_for boxes with
      | [] =>
          (with_preview (set_preview (skuPreviewList p) NoColorsSelected)
             (assign (skuInput p) "")
             (match colorSelect p with
              | None => assign (legacyColorField p) ""
              | Some _ => legacyColorField p
              end) p,
           NothingPending)
      | calls =>
          (with_preview (set_preview (skuPreviewList p) GeneratingPreviews)
             (skuInput p) (assign (legacyColorField p) "none") p,
           AllPending calls)
      end
  end.

(** [(r.colorName || r.colorId) + ': ' + (r.sku || '(preview unavailable)')]. *)
Definition preview_line (r : sku_result) : string :=
  or_else (res_colorName r) (res_colorId r) ++ ": " ++
  or_else (sku r) "(preview unavailable)".

(** The [then] callbacks, run with the results. *)
Definition resolve (k : pending) (results : list sku_result) (p : page) : page :=
  match k with
  | NothingPending => p
  | SinglePending _ =>
      match results with
      | r :: _ =>
          with_preview (set_preview (skuPreviewList p) (PreviewLines [preview_line r]))
            (assign (skuInput p) (sku r)) (legacyColorField p) p
      | [] => p
      end
  | AllPending _ =>
      match skuPreviewList p with
      | None => p                 (* [if (!skuPreviewList) return;] *)
      | Some _ =>
          with_preview (Some (PreviewLines (map preview_line results)))
            (match results with
             | [r] => assign (skuInput p) (sku r)
             | _ => assign (skuInput p) ""
             end)
            (legacyColorField p) p
      end
  end.

Definition calls_of (k : pending) : list sku_call :=
  match k with
  | NothingPending => []
  | SinglePending c => [c]
  | AllPending cs => cs
  end.

(** A whole recomputation: [updateSkuPreviews], the requests it sends
    answered by [server], and its callback. *)
Definition recompute (url : string) (server : answers) (p : page) : page :=
  let '(p1, k) := updateSkuPreviews p in
  resolve k (map (fetchSkuForColor url server) (calls_of k)) p1.

(** ** The debounce

    Time is a count of milliseconds.  A timeout is its identifier and the
    time it is due; the only timeouts of this part of the script are those
    of [debounceSkuPreview]. *)

Record world := {
  pg : page;
  configured_compute_sku : string;      (* [ajax_compute_sku] of #costing-config, empty when absent *)
  now : N;
  next_timer : nat;
  timeouts : list (nat * N);            (* pending timeouts: id, due time *)
  skuPreviewTimer : option nat;         (* [var skuPreviewTimer = null] *)
  batches : list (list sku_call)        (* the requests of each run of [updateSkuPreviews] *)
}.

(** [cfg.ajax_compute_sku]. *)
Definition cfg_ajax_compute_sku (w : world) : string :=
  parseConfig_compute_sku (configured_compute_sku w).

(** The calls of [fetchSkuForColor] that reach [ajaxGet]: all of them when
    the endpoint is set, none otherwise. *)
Definition requests_of (url : string) (calls : list sku_call) : list sku_call :=
  if truthy url then calls else [].

Definition clearTimeout (id : nat) (l : list (nat * N)) : list (nat * N) :=
  filter (fun t => negb (Nat.eqb (fst t) id)) l.

(** The wait of [updateSkuPreviewsDebounced = debounceSkuPreview(updateSkuPreviews, 220)]. *)
Definition wait : N := 220.

(** A call of the debounced function: the pending timeout, if any, is
    cleared and a new one is set [wait || 200] milliseconds ahead. *)
Definition debounceSkuPreview (wait : N) (w : world) : world :=
  let cleared := match skuPreviewTimer w with
                 | Some id => clearTimeout id (timeouts w)
                 | None => timeouts w
                 end in
  {| pg := pg w; configured_compute_sku := configured_compute_sku w; now := now w;
     next_timer := S (next_timer w);
     timeouts := cleared ++ [(next_timer w, now w + (if (wait =? 0)%N then 200 else wait))%N];
     skuPreviewTimer := Some (next_timer w);
     batches := batches w |}.

(** The timeout's callback: [updateSkuPreviews] runs and sends its
    requests. *)
Definition run_callback (w : world) : world :=
  let '(p1, k) := updateSkuPreviews (pg w) in
  {| pg := p1; configured_compute_sku := configured_compute_sku w; now := now w;
     next_timer := next_timer w; timeouts := timeouts w;
     skuPreviewTimer := skuPreviewTimer w;
     batches := batches w ++ [requests_of (cfg_ajax_compute_sku w) (calls_of k)] |}.

(** The timeouts due by time [t] fire in the order they were set; [fuel]
    bounds their number. *)
Fixpoint fire_due (fuel : nat) (t : N) (w : world) : world :=
  match fuel with
  | O => w
  | S fuel' =>
      match find (fun x => (snd x <=? t)%N) (timeouts w) with
      | None => w
      | Some (id, due) =>
          fire_due fuel' t
            (run_callback
               {| pg := pg w; configured_compute_sku := configured_compute_sku w;
                  now := N.max (now w) due;
                  next_timer := next_timer w;
                  timeouts := clearTimeout id (timeouts w);
                  skuPreviewTimer := skuPreviewTimer w;
                  batches := batches w |})
      end
  end.

(** Time passes until [t]. *)
Definition advance (t : N) (w : world) : world :=
  let w' := fire_due (List.length (timeouts w)) t w in
  {| pg := pg w'; configured_compute_sku := configured_compute_sku w';
     now := N.max (now w') t;
     next_timer := next_timer w'; timeouts := timeouts w';
     skuPreviewTimer := skuPreviewTimer w'; batches := batches w' |}.

Fixpoint flip_nth (i : nat) (boxes : list checkbox) : list checkbox :=
  match boxes, i with
  | [], _ => []
  | b :: r, O =>
      {| cb_value := cb_value b; cb_colorName := cb_colorName b;
         cb_checked := negb (cb_checked b) |} :: r
  | b :: r, S i' => b :: flip_nth i' r
  end.

(** What calls the debounced function: the [change] of a colour checkbox
    the user toggles ([onColorCheckboxChange]), or an [input] or [change]
    of the name, collection, size, category or colour select
    ([wirePreviewDependencies]). *)
Inductive trigger :=
| ToggleColour (i : nat)
| DependentFieldChanged.

Definition flip (tr : trigger) (p : page) : page :=
  match tr with
  | ToggleColour i =>
      {| colorsContainer := option_map (flip_nth i) (colorsContainer p);
         colorSelect := colorSelect p;
         legacyColorField := legacyColorField p;
         skuPreviewList := skuPreviewList p; skuInput := skuInput p |}
  | DependentFieldChanged => p
  end.

(** The trigger [tr] happens at time [t]. *)
Definition trigger_at (t : N) (tr : trigger) (w : world) : world :=
  let w1 := advance t w in
  debounceSkuPreview wait
    {| pg := flip tr (pg w1);
       configured_compute_sku := configured_compute_sku w1; now := now w1;
       next_timer := next_timer w1; timeouts := timeouts w1;
       skuPreviewTimer := skuPreviewTimer w1; batches := batches w1 |}.

Definition triggers (w : world) (l : list (N * trigger)) : world :=
  fold_left (fun w ti => trigger_at (fst ti) (snd ti) w) l w.

(** ** Statements and scenarios *)

(** The rule of the canonical SKU field as the specification words it
    (C7): after a recomputation the field holds the fetched SKU of the
    single checked colour, and is empty for none or several. *)
Definition C7_claim (url : string) (server : answers) (p : page) : Prop :=
  forall boxes old,
    colorsContainer p = Some boxes -> skuInput p = Some old ->
    (forall c, calls_for boxes = [c] ->
       skuInput (recompute url server p) = Some (sku (fetchSkuForColor url server c))) /\
    (List.length (calls_for boxes) <> 1%nat ->
       skuInput (recompute url server p) = Some "").

(** A page with colour checkboxes and the SKU field, and no
    [#sku-preview-list]. *)
Definition red_checked : list checkbox :=
  [ {| cb_value := "7"; cb_colorName := "Red"; cb_checked := true |};
    {| cb_value := "8"; cb_colorName := "Blue"; cb_checked := false |} ].

Definition page_without_preview_list : page :=
  {| colorsContainer := Some red_checked; colorSelect := None;
     legacyColorField := None; skuPreviewList := None;
     skuInput := Some "LIN-OLD-BLU" |}.

Definition sku_server : answers :=
  fun id => if String.eqb id "7" then Some "LIN-NEW-RED" else None.

(** The triggers after the first: each comes no earlier than the one
    before it and at most 100 ms after it. *)
Fixpoint spaced (t : N) (l : list (N * trigger)) : Prop :=
  match l with
  | [] => True
  | (t', _) :: r => (t <= t' /\ t' - t <= 100)%N /\ spaced t' r
  end.

Fixpoint last_time (t : N) (l : list (N * trigger)) : N :=
  match l with
  | [] => t
  | (t', _) :: r => last_time t' r
  end.

(** At most the timeout of the debounce is pending. *)
Definition single_timer (w : world) : Prop :=
  timeouts w = [] \/
  exists id due, timeouts w = [(id, due)] /\ skuPreviewTimer w = Some id.

(** The debounce was last called at time [t], [bs] being the batches so far. *)
Definition armed (w : world) (t : N) (bs : list (list sku_call)) : Prop :=
  now w = t /\ batches w = bs /\
  exists id, timeouts w = [(id, t + wait)%N] /\ skuPreviewTimer w = Some id.

(** A costing sheet with three colours, none checked, and nothing pending. *)
Definition three_toggles : list (N * trigger) :=
  [(1000%N, ToggleColour 0); (1050%N, ToggleColour 1); (1120%N, ToggleColour 2)].

Definition three_colours : world :=
  {| pg := {| colorsContainer :=
                Some [ {| cb_value := "7"; cb_colorName := "Red"; cb_checked := false |};
                       {| cb_value := "8"; cb_colorName := "Blue"; cb_checked := false |};
                       {| cb_value := "9"; cb_colorName := ""; cb_checked := false |} ];
              colorSelect := None; legacyColorField := None;
              skuPreviewList := Some NoColorsSelected; skuInput := Some "" |};
     configured_compute_sku := "";
     now := 0; next_timer := 1; timeouts := []; skuPreviewTimer := None;
     batches := [] |}.

(** The line [#sku-preview-list] shows for a colour whose request was
    answered with [answer]. *)
Definition line_for (name id : string) (url : string) (answer : option string) : string :=
  or_else name id ++ ": " ++
  (if truthy url
   then match answer with
        | Some s => or_else s "(preview unavailable)"
        | None => "(preview unavailable)"
        end
   else "(preview unavailable)").

(** A costing sheet with the single colour select and no checkboxes. *)
Definition single_select_page : page :=
  {| colorsContainer := None; colorSelect := Some ("7", "Red");
     legacyColorField := Some ""; skuPreviewList := Some NoColorsSelected;
     skuInput := Some "LIN-OLD-BLU" |}.

End Costing.

(* ================================================================== *)
(** * staticfiles/chat/js/chat.js *)
(* ================================================================== *)

Module Chat.
Import JS.

Definition MAX_PAYLOAD_LENGTH : nat := 2000.

Inductive readyState := CONNECTING | OPEN | CLOSING | CLOSED.

(** The object [sendMessage] serialises with [JSON.stringify]. *)
Record payload := {
  message : string;
  username : string
}.

Record chat := {
  socket : option readyState;       (* [let socket = null] *)
  send_throws : bool;               (* whether [socket.send] throws *)
  input : option string;            (* #msg-input: its value *)
  GLOBAL_CHAT_USERNAME : string;    (* empty when [window] has none *)
  dataset_username : string;        (* [container.dataset.username], empty when absent *)
  lines : list string;              (* the system lines appended to #messages *)
  frames : list payload             (* the chat frames handed to [socket.send] *)
}.

Definition appendSystemLine (text : string) (c : chat) : chat :=
  {| socket := socket c; send_throws := send_throws c; input := input c;
     GLOBAL_CHAT_USERNAME := GLOBAL_CHAT_USERNAME c;
     dataset_username := dataset_username c;
     lines := lines c ++ [text]; frames := frames c |}.

Definition is_open (s : option readyState) : bool :=
  match s with
  | Some OPEN => true
  | _ => false
  end.

(** [window.GLOBAL_CHAT_USERNAME || container.dataset.username || "anonymous"]. *)
Definition resolved_username (c : chat) : string :=
  or_else (GLOBAL_CHAT_USERNAME c) (or_else (dataset_username c) "anonymous").

Definition sendMessage (c : chat) : chat :=
  if negb (is_open (socket c)) then
    appendSystemLine "Cannot send message: socket not connected." c
  else
    match input c with
    | None => c
    | Some value =>
        let text := if truthy value then trim value else "" in
        if negb (truthy text) then c
        else if (MAX_PAYLOAD_LENGTH <? String.length text)%nat then
          appendSystemLine "Message too long." c
        else
          let payload := {| message := text; username := resolved_username c |} in
          if send_throws c then appendSystemLine "Failed to send message." c
          else
            {| socket := socket c; send_throws := send_throws c;
               input := Some "";
               GLOBAL_CHAT_USERNAME := GLOBAL_CHAT_USERNAME c;
               dataset_username := dataset_username c;
               lines := lines c; frames := frames c ++ [payload] |}
    end.

(** The system lines of [sendMessage]. *)
Definition not_connected : string := "Cannot send message: socket not connected.".

(** A chat whose socket is still connecting. *)
Definition connecting_chat : chat :=
  {| socket := Some CONNECTING; send_throws := false; input := Some "hello";
     GLOBAL_CHAT_USERNAME := "asha"; dataset_username := ""; lines := [];
     frames := [] |}.

End Chat.

(* ================================================================== *)
(** * Properties *)
(* ================================================================== *)

Module JSFacts.
Import JS.

(** [0 <= x]: [x] is a number (not NaN) and is a zero or has a clear sign
    bit. *)
Lemma le_pzero_cases (x : number) :
  le pzero x = true <->
  (exists s, x = S754_zero s) \/ x = S754_infinity false \/
  (exists m e, x = S754_finite false m e).
Proof.
  unfold le, SFleb, pzero. split.
  - destruct x as [s|s| |s m e]; simpl; try discriminate.
    + intros _. left. now exists s.
    + destruct s; try discriminate. intros _. right. now left.
    + destruct s; try discriminate. intros _. right. right. now exists m, e.
  - intros [[s ->]|[->|[m [e ->]]]]; reflexivity.
Qed.

Section Iter.
Context {A : Type} (f : A -> A) (P : A -> Prop).
Hypothesis step : forall a, P a -> P (f a).

Lemma iter_pos_preserves (n : positive) : forall a, P a -> P (iter_pos f n a).
Proof.
  induction n as [n IH|n IH|]; intros a Ha; simpl; auto.
Qed.
End Iter.

Lemma shr_1_nonneg (r : shr_record) : 0 <= shr_m r -> 0 <= shr_m (shr_1 r).
Proof.
  destruct r as [m r s]; simpl.
  destruct m as [|p|p]; [ | destruct p | ]; simpl; lia.
Qed.

Lemma shr_fexp_nonneg (m e : Z) (l : location) :
  0 <= m -> 0 <= shr_m (fst (shr_fexp prec emax m e l)).
Proof.
  intros Hm. unfold shr_fexp, shr.
  assert (H0 : 0 <= shr_m (shr_record_of_loc m l))
    by (destruct l as [|[]]; exact Hm).
  destruct (fexp prec emax (Zdigits2 m + e) - e) as [|p|p]; simpl; auto.
  apply iter_pos_preserves; auto using shr_1_nonneg.
Qed.

Lemma round_nearest_even_nonneg (m : Z) (l : location) :
  0 <= m -> 0 <= round_nearest_even m l.
Proof.
  intros Hm. destruct l as [|[]]; simpl; try lia.
  destruct (Z.even m); lia.
Qed.

Lemma binary_round_aux_signed (s : bool) (m e : Z) (l : location) :
  0 <= m -> signed s (binary_round_aux prec emax s m e l).
Proof.
  intros Hm. unfold binary_round_aux.
  pose proof (shr_fexp_nonneg m e l Hm) as H1.
  destruct (shr_fexp prec emax m e l) as [mrs' e'] eqn:E1. simpl in H1.
  pose proof (shr_fexp_nonneg _ e' loc_Exact
                (round_nearest_even_nonneg _ (loc_of_shr_record mrs') H1)) as H2.
  destruct (shr_fexp prec emax _ e' loc_Exact) as [mrs'' e''] eqn:E2. simpl in H2.
  destruct (shr_m mrs'') as [|p|p]; try lia.
  - constructor.
  - destruct (e'' <=? emax - prec); constructor.
Qed.

Lemma binary_round_signed (s : bool) (m : positive) (e : Z) :
  signed s (binary_round prec emax s m e).
Proof.
  unfold binary_round.
  destruct (shl_align m e _) as [mz ez].
  apply binary_round_aux_signed. lia.
Qed.

Lemma signed_le_pzero (x : number) : signed false x -> le pzero x = true.
Proof. intros []; reflexivity. Qed.

Lemma signed_not_nan (s : bool) (x : number) : signed s x -> isNaN x = false.
Proof. intros []; reflexivity. Qed.

Lemma signed_signbit (s : bool) (x : number) : signed s x -> signbit x = s.
Proof. intros []; reflexivity. Qed.

Lemma SFdiv_core_nonneg (m1 m2 : positive) (e1 e2 : Z) :
  0 <= fst (fst (SFdiv_core_binary prec emax (Z.pos m1) e1 (Z.pos m2) e2)).
Proof.
  unfold SFdiv_core_binary.
  set (s := e1 - e2 - _).
  set (m' := match s with Z.pos _ => Z.shiftl (Z.pos m1) s | 0 => Z.pos m1 | Z.neg _ => 0 end).
  assert (Hm' : 0 <= m').
  { subst m'. destruct s; try lia. apply Z.shiftl_nonneg. lia. }
  pose proof (Z_div_mod m' (Z.pos m2) ltac:(lia)) as Hd.
  destruct (Z.div_eucl m' (Z.pos m2)) as [q r]. simpl.
  destruct Hd as [Hq Hr]. nia.
Qed.

Lemma div_finite_signed (sx sy : bool) (mx my : positive) (ex ey : Z) :
  signed (xorb sx sy) (div (S754_finite sx mx ex) (S754_finite sy my ey)).
Proof.
  unfold div, SFdiv.
  pose proof (SFdiv_core_nonneg mx my ex ey) as H.
  destruct (SFdiv_core_binary prec emax (Z.pos mx) ex (Z.pos my) ey) as [[mz ez] lz].
  simpl in H. now apply binary_round_aux_signed.
Qed.

Lemma mul_finite_signed (sx sy : bool) (mx my : positive) (ex ey : Z) :
  signed (xorb sx sy) (mul (S754_finite sx mx ex) (S754_finite sy my ey)).
Proof.
  unfold mul, SFmul. apply binary_round_aux_signed. lia.
Qed.

Lemma of_decimal_signed (neg : bool) (m : N) (e10 : Z) :
  signed neg (of_decimal neg m e10).
Proof.
  unfold of_decimal. destruct m as [|p]; [constructor|].
  destruct e10 as [|k|k]; try apply binary_round_signed.
  pose proof (div_finite_signed neg false p (10 ^ k) 0 0) as H.
  now rewrite xorb_false_r in H.
Qed.

(** Products, quotients and the mark-up factor of non-negative numbers. *)
Lemma mul_nonneg (a b : number) :
  le pzero a = true -> le pzero b = true ->
  isNaN (mul a b) = true \/ le pzero (mul a b) = true.
Proof.
  intros Ha Hb.
  apply le_pzero_cases in Ha. apply le_pzero_cases in Hb.
  destruct Ha as [[sa ->]|[->|[ma [ea ->]]]];
    destruct Hb as [[sb ->]|[->|[mb [eb ->]]]];
    try (left; reflexivity); try (right; reflexivity).
  right. apply signed_le_pzero. apply (mul_finite_signed false false).
Qed.

Lemma div_nonneg (a b : number) :
  le pzero a = true -> gt b pzero = true -> isFinite a = true ->
  le pzero (div a b) = true.
Proof.
  intros Ha Hb Hf.
  apply le_pzero_cases in Ha.
  destruct Ha as [[sa ->]|[->|[ma [ea ->]]]]; try discriminate;
    destruct b as [sb|sb| |sb mb eb]; try discriminate;
    destruct sb; try discriminate; try reflexivity.
  apply signed_le_pzero. apply (div_finite_signed false false).
Qed.

Lemma add_one_nonneg (d : number) :
  le pzero d = true -> le pzero (add one d) = true.
Proof.
  intros Hd. apply le_pzero_cases in Hd.
  destruct Hd as [[s ->]|[->|[m [e ->]]]]; try reflexivity.
  apply signed_le_pzero. unfold add, one, SFadd.
  set (ez := Z.min _ _).
  destruct (shl_align 4503599627370496 (-52) ez) as [m1 e1].
  destruct (shl_align m e ez) as [m2 e2]. simpl.
  apply binary_round_signed.
Qed.

(** ** Digits *)

Lemma code_digit_char (d : N) : (d < 10)%N -> code (digit_char d) = (48 + d)%N.
Proof.
  intros Hd. unfold code, digit_char. apply N_ascii_embedding. lia.
Qed.

Lemma digit_char_is_digit (d : N) : (d < 10)%N -> is_digit (digit_char d) = true.
Proof.
  intros Hd. unfold is_digit. rewrite code_digit_char by assumption.
  apply andb_true_intro; split; apply N.leb_le; lia.
Qed.

Lemma digit_val_char (d : N) : (d < 10)%N -> digit_val (digit_char d) = d.
Proof.
  intros Hd. unfold digit_val. rewrite code_digit_char by assumption. lia.
Qed.

Lemma all_digits_app (a b : string) :
  all_digits (a ++ b) = (all_digits a && all_digits b)%bool.
Proof.
  induction a as [|c a IH]; simpl; [reflexivity|].
  now rewrite IH, andb_assoc.
Qed.

Lemma all_digits_zeros (k : nat) : all_digits (zeros k) = true.
Proof. induction k; simpl; auto. Qed.

Lemma length_zeros (k : nat) : String.length (zeros k) = k.
Proof. induction k; simpl; auto. Qed.

Lemma length_app (a b : string) :
  String.length (a ++ b) = (String.length a + String.length b)%nat.
Proof. induction a as [|c a IH]; simpl; auto. Qed.

Lemma take_digits_app (ds r : string) :
  all_digits ds = true -> starts_nondigit r ->
  take_digits (ds ++ r) = (ds, r).
Proof.
  intros Hds Hr. induction ds as [|c ds IH]; simpl in *.
  - destruct r as [|c r]; simpl in *; [reflexivity|]. now rewrite Hr.
  - apply andb_prop in Hds. destruct Hds as [Hc Hds].
    rewrite Hc, (IH Hds). reflexivity.
Qed.

Lemma take_digits_all (ds : string) :
  all_digits ds = true -> take_digits ds = (ds, EmptyString).
Proof.
  intros H. induction ds as [|c ds IH]; simpl in *; [reflexivity|].
  apply andb_prop in H. destruct H as [Hc Hds].
  now rewrite Hc, (IH Hds).
Qed.

Lemma digits_value_from_spec (s : string) : forall acc,
  digits_value_from acc s =
  (acc * 10 ^ N.of_nat (String.length s) + digits_value s)%N.
Proof.
  unfold digits_value.
  induction s as [|c s IH]; intros acc.
  - simpl. lia.
  - cbn [digits_value_from String.length].
    rewrite IH, (IH (10 * 0 + digit_val c)%N).
    rewrite Nat2N.inj_succ, N.pow_succ_r'. lia.
Qed.

Lemma digits_value_app (a b : string) :
  digits_value (a ++ b) =
  (digits_value a * 10 ^ N.of_nat (String.length b) + digits_value b)%N.
Proof.
  unfold digits_value at 1 2. revert b. generalize 0%N.
  induction a as [|c a IH]; intros acc b; simpl.
  - apply digits_value_from_spec.
  - apply IH.
Qed.

Lemma digits_value_cons (c : ascii) (s : string) :
  digits_value (String c s) =
  (digit_val c * 10 ^ N.of_nat (String.length s) + digits_value s)%N.
Proof.
  unfold digits_value at 1. cbn [digits_value_from].
  rewrite digits_value_from_spec. lia.
Qed.

Lemma digits_value_zeros (k : nat) : digits_value (zeros k) = 0%N.
Proof.
  induction k as [|k IH]; [reflexivity|].
  cbn [zeros]. rewrite digits_value_cons, IH. reflexivity.
Qed.

(** *** [dec_string] prints the digits of its argument *)

Lemma dec_digits_all (fuel : nat) : forall n acc,
  all_digits acc = true -> all_digits (dec_digits fuel n acc) = true.
Proof.
  induction fuel as [|fuel IH]; intros n acc Hacc; simpl; [assumption|].
  assert (Hd : all_digits (String (digit_char (n mod 10)) acc) = true).
  { simpl. rewrite Hacc, digit_char_is_digit; [reflexivity|].
    apply N.mod_lt. discriminate. }
  destruct (n / 10 =? 0)%N; auto.
Qed.

Lemma dec_digits_value (fuel : nat) : forall n acc,
  (n < 2 ^ N.of_nat fuel)%N ->
  digits_value (dec_digits fuel n acc) =
  (n * 10 ^ N.of_nat (String.length acc) + digits_value acc)%N.
Proof.
  induction fuel as [|fuel IH]; intros n acc Hn.
  - simpl in *. assert (n = 0%N) by lia. subst. lia.
  - cbn [dec_digits].
    pose proof (N.div_mod' n 10) as Hdm.
    pose proof (N.mod_lt n 10 ltac:(discriminate)) as Hlt.
    assert (Hcons : digits_value (String (digit_char (n mod 10)) acc) =
              ((n mod 10) * 10 ^ N.of_nat (String.length acc) + digits_value acc)%N).
    { rewrite digits_value_cons, digit_val_char by assumption. reflexivity. }
    destruct (n / 10 =? 0)%N eqn:E.
    + apply N.eqb_eq in E. rewrite Hcons. replace (n mod 10)%N with n by lia.
      reflexivity.
    + rewrite IH.
      * rewrite Hcons. cbn [String.length].
        rewrite Nat2N.inj_succ, N.pow_succ_r'. nia.
      * rewrite Nat2N.inj_succ, N.pow_succ_r' in Hn.
        apply N.Div0.div_lt_upper_bound. nia.
Qed.

Lemma dec_digits_keeps (fuel : nat) : forall n acc,
  acc <> EmptyString -> dec_digits fuel n acc <> EmptyString.
Proof.
  induction fuel as [|fuel IH]; intros n acc Hacc; cbn [dec_digits]; auto.
  destruct (n / 10 =? 0)%N; [discriminate|]. apply IH. discriminate.
Qed.

Lemma dec_digits_nonempty (fuel : nat) (n : N) (acc : string) :
  dec_digits (S fuel) n acc <> EmptyString.
Proof.
  cbn [dec_digits]. destruct (n / 10 =? 0)%N; [discriminate|].
  apply dec_digits_keeps. discriminate.
Qed.

Lemma dec_digits_length (fuel : nat) : forall n acc k,
  (n < 10 ^ N.of_nat (S k))%N ->
  (String.length (dec_digits fuel n acc) <= S k + String.length acc)%nat.
Proof.
  induction fuel as [|fuel IH]; intros n acc k Hn; cbn [dec_digits].
  - lia.
  - destruct (n / 10 =? 0)%N eqn:E; [simpl; lia|].
    apply N.eqb_neq in E.
    destruct k as [|k].
    + exfalso. apply E. apply N.div_small. simpl in Hn. lia.
    + etransitivity; [apply (IH _ _ k)|simpl; lia].
      rewrite (Nat2N.inj_succ (S k)), N.pow_succ_r' in Hn.
      apply N.Div0.div_lt_upper_bound. lia.
Qed.

Lemma log2_fuel (n : N) : (n < 2 ^ N.of_nat (S (N.to_nat (N.log2 n))))%N.
Proof.
  rewrite Nat2N.inj_succ, N2Nat.id.
  destruct n as [|p]; [reflexivity|].
  apply N.log2_spec. lia.
Qed.

Lemma dec_string_all (n : N) : all_digits (dec_string n) = true.
Proof. apply dec_digits_all. reflexivity. Qed.

Lemma dec_string_value (n : N) : digits_value (dec_string n) = n.
Proof.
  unfold dec_string. rewrite dec_digits_value by apply log2_fuel.
  simpl. unfold digits_value. simpl. lia.
Qed.

Lemma dec_string_nonempty (n : N) : dec_string n <> EmptyString.
Proof. apply dec_digits_nonempty. Qed.

Lemma dec_string_length (n : N) (k : nat) :
  (n < 10 ^ N.of_nat (S k))%N -> (String.length (dec_string n) <= S k)%nat.
Proof.
  intros H. unfold dec_string.
  etransitivity; [apply dec_digits_length; eassumption|simpl; lia].
Qed.

(** ** [Number] reads back what [toFixed] prints *)

Lemma app_empty_r (s : string) : (s ++ "")%string = s.
Proof. induction s as [|c s IH]; simpl; congruence. Qed.

Lemma app_assoc (a b c : string) : ((a ++ b) ++ c = a ++ (b ++ c))%string.
Proof. induction a as [|x a IH]; simpl; congruence. Qed.

Lemma split_sign_digit (c : ascii) (r : string) :
  is_digit c = true -> split_sign (String c r) = (false, String c r).
Proof.
  destruct c as [[] [] [] [] [] [] [] []]; intros H; vm_compute in H;
    try discriminate H; reflexivity.
Qed.

Lemma not_Infinity_digit (c : ascii) (r : string) :
  is_digit c = true -> String.eqb (String c r) "Infinity" = false.
Proof.
  destruct c as [[] [] [] [] [] [] [] []]; intros H; vm_compute in H;
    try discriminate H; reflexivity.
Qed.

Lemma digit_headed_app (a b : string) :
  a <> EmptyString -> all_digits a = true -> digit_headed (a ++ b).
Proof.
  destruct a as [|c a]; [congruence|]. simpl. intros _ H.
  now apply andb_prop in H.
Qed.

Lemma Number_digit_headed (s : string) :
  digit_headed s -> Number s = parse_unsigned false s.
Proof.
  destruct s as [|c r]; [simpl; tauto|]. intros H.
  unfold Number. now rewrite (split_sign_digit c r H).
Qed.

Lemma Number_minus (s : string) :
  Number (String "-" s) = parse_unsigned true s.
Proof. reflexivity. Qed.

Lemma parse_unsigned_digit_headed (neg : bool) (s : string) :
  digit_headed s ->
  parse_unsigned neg s =
    let '(ip, r1) := take_digits s in
    let '(fp, r2) :=
      match r1 with
      | String "." r => take_digits r
      | _ => (EmptyString, r1)
      end in
    match (ip ++ fp)%string with
    | EmptyString => S754_nan
    | String _ _ as ds =>
        match parse_exponent r2 with
        | Some e => of_decimal neg (digits_value ds) (e - Z.of_nat (String.length fp))
        | None => S754_nan
        end
    end.
Proof.
  destruct s as [|c r]; [simpl; tauto|]. intros H.
  unfold parse_unsigned. now rewrite (not_Infinity_digit c r H).
Qed.

Lemma fixed_digits_headed (n : N) (f : nat) : digit_headed (fixed_digits n f).
Proof.
  destruct f as [|f]; cbn [fixed_digits].
  - rewrite <- (app_empty_r (dec_string n)).
    apply digit_headed_app; auto using dec_string_nonempty, dec_string_all.
  - apply digit_headed_app; auto using dec_string_nonempty, dec_string_all.
Qed.

Lemma nonempty_app (a b : string) : a <> EmptyString -> (a ++ b)%string <> EmptyString.
Proof. destruct a; simpl; congruence. Qed.

Lemma parse_unsigned_fixed_digits (neg : bool) (n : N) (f : nat) :
  parse_unsigned neg (fixed_digits n f) = of_decimal neg n (- Z.of_nat f).
Proof.
  rewrite parse_unsigned_digit_headed by apply fixed_digits_headed.
  destruct f as [|f]; cbn [fixed_digits].
  - rewrite take_digits_all by apply dec_string_all.
    rewrite app_empty_r.
    destruct (dec_string n) as [|c r] eqn:E;
      [now apply dec_string_nonempty in E|].
    rewrite <- E, dec_string_value. reflexivity.
  - set (p10 := (10 ^ N.of_nat (S f))%N).
    set (b := dec_string (n mod p10)).
    set (zb := (zeros (S f - String.length b) ++ b)%string).
    assert (Hp10 : p10 <> 0%N) by (apply N.pow_nonzero; discriminate).
    assert (Hlen : (String.length b <= S f)%nat).
    { apply dec_string_length. apply N.mod_lt. exact Hp10. }
    assert (Hzb : all_digits zb = true).
    { unfold zb. rewrite all_digits_app, all_digits_zeros. apply dec_string_all. }
    assert (Hlzb : String.length zb = S f).
    { unfold zb. rewrite length_app, length_zeros. lia. }
    rewrite take_digits_app; [|apply dec_string_all|reflexivity].
    change ("." ++ zb)%string with (String "." zb). cbv iota beta.
    rewrite take_digits_all by exact Hzb.
    destruct (dec_string (n / p10) ++ zb)%string as [|c r] eqn:E.
    { exfalso. revert E. apply nonempty_app, dec_string_nonempty. }
    rewrite <- E. cbn [parse_exponent].
    rewrite digits_value_app, dec_string_value, Hlzb.
    assert (Hv : digits_value zb = (n mod p10)%N).
    { unfold zb, b.
      now rewrite digits_value_app, digits_value_zeros, dec_string_value. }
    rewrite Hv. fold p10. f_equal.
    rewrite (N.div_mod' n p10) at 3. lia.
Qed.

(** The exponent notation of a large number is read back as a decimal
    literal. *)
Lemma strip_trailing_zeros_all (s : string) :
  all_digits s = true -> all_digits (strip_trailing_zeros s) = true.
Proof.
  induction s as [|c s IH]; [reflexivity|].
  cbn [all_digits strip_trailing_zeros]. intros H.
  apply andb_prop in H. destruct H as [Hc Hs]. specialize (IH Hs).
  destruct (strip_trailing_zeros s) as [|c' s'].
  - destruct (Ascii.eqb c "0"); cbn [all_digits]; [reflexivity|now rewrite Hc].
  - change (all_digits (String c (String c' s')))
      with (is_digit c && all_digits (String c' s'))%bool.
    now rewrite Hc, IH.
Qed.

Lemma parse_exponent_plus (E : string) :
  E <> EmptyString -> all_digits E = true ->
  parse_exponent ("e+" ++ E) = Some (Z.of_N (digits_value E)).
Proof.
  intros Hne HE. cbn. rewrite take_digits_all by exact HE.
  destruct E; [congruence|reflexivity].
Qed.

Lemma exponent_notation_headed (V : N) : digit_headed (exponent_notation V).
Proof.
  unfold exponent_notation.
  pose proof (strip_trailing_zeros_all _ (dec_string_all V)) as H.
  destruct (strip_trailing_zeros (dec_string V)) as [|d r]; [reflexivity|].
  simpl in H. apply andb_prop in H. destruct H as [Hd _].
  destruct r; exact Hd.
Qed.

Lemma parse_unsigned_exponent_notation (neg : bool) (V : N) :
  exists n e10, parse_unsigned neg (exponent_notation V) = of_decimal neg n e10.
Proof.
  rewrite parse_unsigned_digit_headed by apply exponent_notation_headed.
  unfold exponent_notation.
  pose proof (strip_trailing_zeros_all _ (dec_string_all V)) as H.
  set (E := dec_string (N.of_nat (String.length (dec_string V) - 1))).
  assert (HE : parse_exponent ("e+" ++ E) = Some (Z.of_N (digits_value E)))
    by (apply parse_exponent_plus; [apply dec_string_nonempty|apply dec_string_all]).
  destruct (strip_trailing_zeros (dec_string V)) as [|d r].
  { exists 0%N, 0. reflexivity. }
  simpl in H. apply andb_prop in H. destruct H as [Hd Hr].
  destruct r as [|c r].
  - change (String d "" ++ "e+" ++ E)%string with (String d "" ++ ("e+" ++ E))%string.
    rewrite take_digits_app; [|simpl; now rewrite Hd|reflexivity].
    change ("e+" ++ E)%string with (String "e" (String "+" E)) at 1.
    cbv iota beta. change (String "e" (String "+" E)) with ("e+" ++ E)%string.
    rewrite HE. simpl. eauto.
  - set (r' := String c r) in *.
    change (String d "" ++ "." ++ r' ++ "e+" ++ E)%string
      with (String d "" ++ String "." (r' ++ ("e+" ++ E)))%string.
    rewrite take_digits_app; [|simpl; now rewrite Hd|reflexivity].
    cbv iota beta.
    rewrite take_digits_app; [|exact Hr|reflexivity].
    rewrite HE. simpl. eauto.
Qed.

(** [Number(x.toFixed(f))] for a finite [x]: a decimal literal with the
    sign of [x]. *)
Lemma Number_signed_literal (s : bool) (body : string) :
  digit_headed body ->
  Number ((if s then "-" else "") ++ body) = parse_unsigned s body.
Proof.
  intros H. destruct s.
  - reflexivity.
  - change (("" ++ body)%string) with body. now apply Number_digit_headed.
Qed.

Lemma Number_toFixed_below_1e21 (s : bool) (m : positive) (e : Z) (f : nat) :
  ge_1e21 m e = false ->
  Number (toFixed (S754_finite s m e) f) =
  of_decimal s (round_scaled m e f) (- Z.of_nat f).
Proof.
  intros Hlt. unfold toFixed. rewrite Hlt.
  rewrite Number_signed_literal by apply fixed_digits_headed.
  apply parse_unsigned_fixed_digits.
Qed.

Lemma Number_toFixed_finite (s : bool) (m : positive) (e : Z) (f : nat) :
  exists n e10, Number (toFixed (S754_finite s m e) f) = of_decimal s n e10.
Proof.
  destruct (ge_1e21 m e) eqn:Hge.
  - unfold toFixed. rewrite Hge. unfold toString_big.
    rewrite Number_signed_literal by apply exponent_notation_headed.
    apply parse_unsigned_exponent_notation.
  - rewrite Number_toFixed_below_1e21 by assumption. eauto.
Qed.

Lemma Number_toFixed_zero (s : bool) (f : nat) :
  Number (toFixed (S754_zero s) f) = pzero.
Proof.
  unfold toFixed.
  rewrite (Number_digit_headed _ (fixed_digits_headed 0 f)).
  now rewrite parse_unsigned_fixed_digits.
Qed.

(** Rounding a non-negative number to [f] decimals gives a number with a
    clear sign bit; rounding any number gives a number. *)
Lemma Number_toFixed_nonneg (x : number) (f : nat) :
  le pzero x = true -> signed false (Number (toFixed x f)).
Proof.
  intros H. apply le_pzero_cases in H.
  destruct H as [[s ->]|[->|[m [e ->]]]].
  - rewrite Number_toFixed_zero. constructor.
  - constructor.
  - destruct (Number_toFixed_finite false m e f) as [n [e10 ->]].
    apply of_decimal_signed.
Qed.

Lemma Number_toFixed_not_nan (x : number) (f : nat) :
  isNaN x = false -> isNaN (Number (toFixed x f)) = false.
Proof.
  destruct x as [s|s| |s m e]; intros H; try discriminate H.
  - now rewrite Number_toFixed_zero.
  - now destruct s.
  - destruct (Number_toFixed_finite s m e f) as [n [e10 ->]].
    eapply signed_not_nan, of_decimal_signed.
Qed.

(** [round_scaled m e f] is the integer nearest to [m * 2^e * 10^f], the
    larger one of two that are as near. *)
Lemma round_scaled_nearest (m k : positive) (f : nat) :
  let n := round_scaled m (Zneg k) f in
  (2 * n * 2 ^ Npos k <= 2 * Npos m * 10 ^ N.of_nat f + 2 ^ Npos k
   /\ 2 * Npos m * 10 ^ N.of_nat f + 2 ^ Npos k < 2 * (n + 1) * 2 ^ Npos k)%N.
Proof.
  unfold round_scaled.
  set (a := (2 * Npos m * 10 ^ N.of_nat f + 2 ^ Npos k)%N).
  set (b := (2 * 2 ^ Npos k)%N).
  set (n := (a / b)%N). cbv zeta.
  assert (Hb : b <> 0%N).
  { unfold b. pose proof (N.pow_nonzero 2 (Npos k) ltac:(discriminate)). lia. }
  pose proof (N.div_mod' a b) as Hd. fold n in Hd.
  pose proof (N.mod_lt a b Hb) as Hm.
  assert (E1 : (2 * n * 2 ^ N.pos k = b * n)%N) by (unfold b; ring).
  assert (E2 : (2 * (n + 1) * 2 ^ N.pos k = b * n + b)%N) by (unfold b; ring).
  rewrite E1, E2.
  revert Hd Hm. generalize (a mod b)%N (b * n)%N. clearbody a b.
  intros r q Hd Hm. lia.
Qed.

Lemma round_scaled_integer (m : positive) (e : Z) (f : nat) :
  0 <= e ->
  round_scaled m e f = (Npos m * 2 ^ Z.to_N e * 10 ^ N.of_nat f)%N.
Proof. intros He. unfold round_scaled. destruct e; [reflexivity|reflexivity|lia]. Qed.

(** The runtime on a few well-known values. *)
(** ** Rounding does not overflow below [2^1023] *)

Lemma digits2_pos_bounds (p : positive) :
  2 ^ (Z.pos (digits2_pos p) - 1) <= Z.pos p < 2 ^ Z.pos (digits2_pos p).
Proof.
  induction p as [p IH|p IH|]; simpl digits2_pos.
  - rewrite Pos2Z.inj_succ.
    replace (Z.succ (Z.pos (digits2_pos p)) - 1) with (Z.succ (Z.pos (digits2_pos p) - 1)) by lia.
    rewrite !Z.pow_succ_r by lia. lia.
  - rewrite Pos2Z.inj_succ.
    replace (Z.succ (Z.pos (digits2_pos p)) - 1) with (Z.succ (Z.pos (digits2_pos p) - 1)) by lia.
    rewrite !Z.pow_succ_r by lia. lia.
  - simpl. lia.
Qed.

Lemma Zdigits2_nonneg (m : Z) : 0 <= Zdigits2 m.
Proof. destruct m; simpl; lia. Qed.

Lemma Zdigits2_le (m k : Z) : 0 <= m -> 0 <= k -> m < 2 ^ k -> Zdigits2 m <= k.
Proof.
  intros Hm Hk Hlt. destruct m as [|p|p]; simpl; try lia.
  destruct (digits2_pos_bounds p) as [H1 _].
  destruct (Z.le_gt_cases (Z.pos (digits2_pos p)) k) as [H|H]; [exact H|].
  assert (2 ^ k <= 2 ^ (Z.pos (digits2_pos p) - 1)) by (apply Z.pow_le_mono_r; lia).
  lia.
Qed.

Lemma Zdigits2_lt (m : Z) : 0 <= m -> m < 2 ^ Zdigits2 m.
Proof.
  intros Hm. destruct m as [|p|p]; simpl Zdigits2; try lia.
  apply digits2_pos_bounds.
Qed.

Lemma shr_1_fits (n : Z) (r : shr_record) :
  fits n r -> fits (Z.max (n - 1) 0) (shr_1 r).
Proof.
  intros [H0 Hd]. destruct r as [m b s]. simpl in *.
  destruct m as [|[p|p|]|p]; simpl in *; unfold fits; simpl; try lia.
Qed.

Lemma iter_shr_1_fits (p : positive) : forall n r,
  fits n r -> fits (Z.max (n - Z.pos p) 0) (iter_pos shr_1 p r).
Proof.
  induction p as [p IH|p IH|]; intros n r H; simpl.
  - apply shr_1_fits, IH, IH in H.
    destruct H as [H0 Hd]. split; [exact H0|]. lia.
  - apply IH, IH in H. destruct H as [H0 Hd]. split; [exact H0|]. lia.
  - apply shr_1_fits in H. exact H.
Qed.

Lemma fexp_le (x : Z) : x <= 1024 -> fexp prec emax x <= 971.
Proof. unfold fexp, emin, prec, emax. lia. Qed.

(** After [shr_fexp] the mantissa and the exponent still add up to at most
    what they did, and the exponent is at most [971]. *)
Lemma shr_fexp_fits (m e : Z) (l : location) (B : Z) :
  0 <= m -> Zdigits2 m + e <= B -> B <= 1024 -> e <= 971 ->
  let '(r, e') := shr_fexp prec emax m e l in
  0 <= shr_m r /\ e' <= 971 /\
  (Zdigits2 (shr_m r) + e' <= B \/ (shr_m r = 0 /\ e' <= 970) \/
   Zdigits2 (shr_m r) + e' <= e') /\
  Zdigits2 (shr_m r) + e' <= Z.max B e'.
Proof.
  intros Hm Hd HB He. unfold shr_fexp, shr.
  assert (Hf : fits (Zdigits2 m) (shr_record_of_loc m l)).
  { split; destruct l as [|[]]; simpl; lia. }
  pose proof (fexp_le (Zdigits2 m + e) ltac:(lia)) as Hfe.
  destruct (fexp prec emax (Zdigits2 m + e) - e) as [|p|p] eqn:E.
  - destruct Hf as [H0 H1]. repeat split; try lia.
  - apply (iter_shr_1_fits p) in Hf. destruct Hf as [H0 H1].
    repeat split; try lia.
  - destruct Hf as [H0 H1]. repeat split; try lia.
Qed.

Lemma round_nearest_even_le (m : Z) (l : location) :
  round_nearest_even m l <= m + 1.
Proof. destruct l as [|[]]; simpl; try lia. destruct (Z.even m); lia. Qed.

Lemma Zdigits2_round (m : Z) (l : location) :
  0 <= m -> Zdigits2 (round_nearest_even m l) <= Zdigits2 m + 1.
Proof.
  intros Hm. apply Zdigits2_le.
  - now apply round_nearest_even_nonneg.
  - pose proof (Zdigits2_nonneg m). lia.
  - pose proof (round_nearest_even_le m l).
    pose proof (Zdigits2_lt m Hm).
    rewrite Z.pow_add_r by (pose proof (Zdigits2_nonneg m); lia).
    change (2 ^ 1) with 2. lia.
Qed.

Lemma binary_round_aux_finite (s : bool) (m e : Z) (l : location) :
  0 <= m -> Zdigits2 m + e <= 1023 -> e <= 971 ->
  isFinite (binary_round_aux prec emax s m e l) = true.
Proof.
  intros Hm Hd He. unfold binary_round_aux.
  pose proof (shr_fexp_fits m e l 1023 Hm Hd ltac:(lia) He) as H1.
  destruct (shr_fexp prec emax m e l) as [r1 e1].
  destruct H1 as [H1a [H1b [_ H1d]]].
  set (m2 := round_nearest_even (shr_m r1) (loc_of_shr_record r1)).
  assert (Hm2 : 0 <= m2) by now apply round_nearest_even_nonneg.
  assert (Hd2 : Zdigits2 m2 + e1 <= 1024).
  { pose proof (Zdigits2_round (shr_m r1) (loc_of_shr_record r1) H1a). fold m2 in H.
    lia. }
  pose proof (shr_fexp_fits m2 e1 loc_Exact 1024 Hm2 Hd2 ltac:(lia) H1b) as H2.
  destruct (shr_fexp prec emax m2 e1 loc_Exact) as [r2 e2].
  destruct H2 as [H2a [H2b _]].
  destruct (shr_m r2) as [|p|p]; try lia; [reflexivity|].
  assert (E : (e2 <=? emax - prec) = true) by (apply Z.leb_le; unfold emax, prec; lia).
  now rewrite E.
Qed.

(** The quotient of an integer below [2^1023] by a positive integer is a
    finite number. *)
Lemma div_integers_finite (s : bool) (p q : positive) :
  Z.pos p < 2 ^ 1023 ->
  isFinite (div (S754_finite s p 0) (S754_finite false q 0)) = true.
Proof.
  intros Hp. unfold div, SFdiv.
  pose proof (SFdiv_core_nonneg p q 0 0) as Hq.
  unfold SFdiv_core_binary in *.
  set (e' := Z.min (fexp prec emax (Zdigits2 (Z.pos p) + 0 - (Zdigits2 (Z.pos q) + 0))) (0 - 0)) in *.
  assert (He' : e' <= 0) by (unfold e'; lia).
  set (sh := 0 - 0 - e') in *.
  set (m' := match sh with Z.pos _ => Z.shiftl (Z.pos p) sh | 0 => Z.pos p | Z.neg _ => 0 end) in *.
  assert (Hm' : 0 <= m' <= Z.pos p * 2 ^ sh).
  { subst m'. destruct sh eqn:Es; try lia.
    rewrite Z.shiftl_mul_pow2 by lia. nia. }
  pose proof (Z_div_mod m' (Z.pos q) ltac:(lia)) as Hdm.
  destruct (Z.div_eucl m' (Z.pos q)) as [qu r]. simpl in Hq.
  destruct Hdm as [Hdm Hr].
  apply binary_round_aux_finite; [exact Hq| |lia].
  assert (Hle : qu <= Z.pos p * 2 ^ sh) by nia.
  assert (Hsh : 0 <= sh) by (unfold sh; lia).
  assert (Hdg : Zdigits2 qu <= 1023 + sh).
  { apply Zdigits2_le; [exact Hq|lia|].
    rewrite Z.pow_add_r by lia.
    assert (0 < 2 ^ sh) by (apply Z.pow_pos_nonneg; lia). nia. }
  unfold sh in Hdg. lia.
Qed.

Lemma of_decimal_fraction_finite (s : bool) (n : N) (k : positive) :
  (n < 2 ^ 1023)%N -> isFinite (of_decimal s n (Z.neg k)) = true.
Proof.
  intros Hn. unfold of_decimal. destruct n as [|p]; [reflexivity|].
  apply div_integers_finite.
  change (Z.pos p) with (Z.of_N (N.pos p)).
  change (2 ^ 1023) with (Z.of_N (2 ^ 1023)). now apply N2Z.inj_lt.
Qed.

Lemma round_scaled_bound (m : positive) (e : Z) (f : nat) :
  ge_1e21 m e = false ->
  (round_scaled m e f < (10 ^ 21 + 1) * 10 ^ N.of_nat f)%N.
Proof.
  intros H. unfold ge_1e21 in H. unfold round_scaled.
  assert (Hp : (0 < 10 ^ N.of_nat f)%N) by (apply N.neq_0_lt_0, N.pow_nonzero; discriminate).
  set (p10 := (10 ^ N.of_nat f)%N) in *.
  destruct e as [|k|k]; apply N.leb_gt in H.
  - change (2 ^ Z.to_N 0)%N with 1%N in *. nia.
  - set (q := (2 ^ Z.to_N (Z.pos k))%N) in *. nia.
  - assert (Hq : (0 < 2 ^ N.pos k)%N) by (apply N.neq_0_lt_0, N.pow_nonzero; discriminate).
    set (q := (2 ^ N.pos k)%N) in *.
    apply N.Div0.div_lt_upper_bound. nia.
Qed.

Lemma pow10_bound (f : nat) :
  (f <= 100)%nat -> ((10 ^ 21 + 1) * 10 ^ N.of_nat f <= 2 ^ 1023)%N.
Proof.
  intros Hf.
  assert (H : (10 ^ N.of_nat f <= 10 ^ 100)%N) by (apply N.pow_le_mono_r; lia).
  assert (H2 : ((10 ^ 21 + 1) * 10 ^ 100 <= 2 ^ 1023)%N) by (vm_compute; discriminate).
  eapply N.le_trans; [|exact H2]. apply N.mul_le_mono_l. exact H.
Qed.

(** Below [10^21], what [toFixed] prints reads back as a finite number. *)
Lemma Number_toFixed_is_finite (x : number) (f : nat) :
  below_1e21 x = true -> (0 < f <= 100)%nat ->
  isFinite (Number (toFixed x f)) = true.
Proof.
  intros Hx Hf. destruct x as [s|s| |s m e]; try discriminate Hx.
  - now rewrite Number_toFixed_zero.
  - simpl in Hx. apply negb_true_iff in Hx.
    rewrite Number_toFixed_below_1e21 by exact Hx.
    destruct f as [|f]; [lia|].
    change (- Z.of_nat (S f)) with (Z.neg (Pos.of_succ_nat f)).
    apply of_decimal_fraction_finite.
    eapply N.lt_le_trans; [apply round_scaled_bound; exact Hx|].
    apply pow10_bound. lia.
Qed.

Lemma toFixed_fixed_digits (x : number) (f : nat) :
  below_1e21 x = true -> le pzero x = true ->
  exists n, toFixed x f = fixed_digits n f.
Proof.
  intros Hx Hle. destruct x as [s|s| |s m e]; try discriminate Hx.
  - exists 0%N. reflexivity.
  - destruct s; [discriminate Hle|].
    simpl in Hx. apply negb_true_iff in Hx.
    exists (round_scaled m e f). unfold toFixed. now rewrite Hx.
Qed.

Lemma below_1e21_finite (x : number) : below_1e21 x = true -> isFinite x = true.
Proof. destruct x; simpl; congruence. Qed.

(** ** [Number::toString] is not empty *)

Lemma truthy_app_point (a b : string) : truthy (a ++ "." ++ b) = true.
Proof. now destruct a. Qed.

Lemma layout_truthy (ds : string) (n : Z) : truthy (layout ds n) = true.
Proof.
  unfold layout. destruct ds as [|d r]; [reflexivity|].
  destruct ((_ <=? n) && (n <=? 21))%bool; [reflexivity|].
  destruct ((0 <? n) && (n <=? 21))%bool; [apply truthy_app_point|].
  destruct ((-6 <? n) && (n <=? 0))%bool; [reflexivity|].
  now destruct r.
Qed.

Lemma Number_toString_truthy (x : number) : truthy (Number_toString x) = true.
Proof.
  destruct x as [s|s| |s m e]; try reflexivity; [now destruct s|].
  simpl. destruct s; [reflexivity|].
  unfold toString_finite.
  destruct (exact_ratio m e) as [num den].
  destruct (shortest_digits _ _ _ _ _ _) as [c k].
  apply layout_truthy.
Qed.

Example Number_toString_examples :
  map Number_toString
    [Number "12.5"; Number "58"; Number "0.1"; Number "-0"; Number "1e21";
     Number "123456789012345680000"; Number "0.000001"; Number "0.0000001";
     Number "-13.75"; Number "5e-324"; Number "9007199254740993"] =
  ["12.5"; "58"; "0.1"; "0"; "1e+21"; "123456789012345680000"; "0.000001";
   "1e-7"; "-13.75"; "5e-324"; "9007199254740992"].
Proof. vm_compute. reflexivity. Qed.

Example Number_examples :
  Number "0.1" = S754_finite false 7205759403792794 (-56) /\
  Number "-.5" = S754_finite true 4503599627370496 (-53) /\
  Number "9007199254740993" = S754_finite false 4503599627370496 1 /\
  Number "" = S754_zero false /\
  Number "1.2.3" = S754_nan /\ Number "-" = S754_nan /\
  Number "1e+21" = S754_finite false 7629394531250000 17 /\
  Number "5e-324" = S754_finite false 1 (-1074) /\
  Number "1.7976931348623159e308" = S754_infinity false.
Proof. repeat split; vm_compute; reflexivity. Qed.

Example toFixed_examples :
  toFixed (Number "1.005") 2 = "1.00" /\
  toFixed (Number "0.125") 2 = "0.13" /\
  toFixed (Number "2.5") 0 = "3" /\
  toFixed (Number "-0.001") 2 = "-0.00" /\
  toFixed (Number "-0") 2 = "0.00" /\
  toFixed (Number "123456789012345680000") 2 = "123456789012345683968.00" /\
  toFixed (Number "1e21") 2 = "1e+21" /\
  toFixed (Number "1180591620717411303424") 2 = "1.1805916207174113e+21" /\
  toFixed (Number "1e400") 2 = "Infinity".
Proof. repeat split; vm_compute; reflexivity. Qed.

End JSFacts.

Module MetricFacts.
Import JS JSFacts ComponentForm.

(** The constants are the values of the source's literals. *)
Lemma literals :
  Number "100" = lit_100 /\ Number "2.54" = lit_2_54 /\
  Number "1.07" = lit_1_07 /\ Number "1" = one.
Proof. repeat split; vm_compute; reflexivity. Qed.

Lemma div_lit_100_nonneg (l : number) :
  le pzero l = true -> le pzero (div l lit_100) = true.
Proof.
  intros Hl. apply le_pzero_cases in Hl.
  destruct Hl as [[s ->]|[->|[m [e ->]]]]; try reflexivity.
  apply signed_le_pzero. apply (div_finite_signed false false).
Qed.

(** A logistics percent that is not below zero gives a mark-up factor that
    is not below zero. *)
Lemma factor_nonneg (l : number) :
  le pzero l = true -> le pzero (add one (div l lit_100)) = true.
Proof. intros H. now apply add_one_nonneg, div_lit_100_nonneg. Qed.

Lemma parseNum_finite (v : string) : isFinite (parseNum v) = true.
Proof.
  unfold parseNum.
  destruct (isFinite (Number (filter_chars numeric_char v))) eqn:E;
    [exact E|reflexivity].
Qed.



Lemma pricePerSqft_nonneg (fpu denom : number) :
  le pzero fpu = true -> isFinite fpu = true ->
  le pzero (pricePerSqft_of fpu denom) = true.
Proof.
  intros H1 H2. unfold pricePerSqft_of.
  destruct (gt denom pzero) eqn:E; [|reflexivity].
  now apply div_nonneg.
Qed.

Lemma finalPricePerUnit_nonneg (price logistics : number) :
  le pzero price = true ->
  le pzero (add one (div logistics lit_100)) = true ->
  isFinite (finalPricePerUnit_of price logistics) = true ->
  le pzero (finalPricePerUnit_of price logistics) = true.
Proof.
  intros Hp Hf Hfin. unfold finalPricePerUnit_of in *.
  destruct (mul_nonneg _ _ Hp Hf) as [Hnan|Hle].
  - destruct (mul price (add one (div logistics lit_100))); discriminate.
  - apply signed_le_pzero. now apply Number_toFixed_nonneg.
Qed.

(** C1, as the script behaves.  For every input the final cost is the final
    price per unit, and both are the price with the logistics mark-up
    rounded to two decimals (below [10^21]: the number nearest to [n / 100],
    [n] the integer nearest to a hundred times the product).  The price per
    square foot is not below zero when the price and the mark-up factor are
    not below zero and the final price is finite; a negative price gives a
    negative price per square foot. *)
Theorem C1_amended (p w u l : string) :
  let price := parseNum p in
  let factor := add one (div (parseNum l) lit_100) in
  let fpu := finalPricePerUnit_of price (parseNum l) in
  let m := computeClientMetrics p w u l in
  final_cost m = final_price_per_unit m /\
  final_price_per_unit m = toFixed (round_to (mul price factor) 2) 2 /\
  (forall s mx ex, mul price factor = S754_finite s mx ex -> ge_1e21 mx ex = false ->
     fpu = of_decimal s (round_scaled mx ex 2) (-2)) /\
  (le pzero price = true -> le pzero factor = true -> isFinite fpu = true ->
     le pzero (Number (price_per_sqfoot m)) = true).
Proof.
  intros price factor fpu m. repeat split.
  - intros s mx ex Hx Hlt. unfold fpu, finalPricePerUnit_of.
    fold price factor. rewrite Hx. now apply Number_toFixed_below_1e21.
  - intros Hp Hf Hfin. apply signed_le_pzero, Number_toFixed_nonneg.
    apply pricePerSqft_nonneg; [|exact Hfin].
    now apply finalPricePerUnit_nonneg.
Qed.

Lemma C1_amended_witness :
  computeClientMetrics "100" "58" "inch" "10" =
    {| final_price_per_unit := "110.00"; price_per_sqfoot := "79.8941";
       final_cost := "110.00" |} /\
  le pzero (Number (price_per_sqfoot (computeClientMetrics "100" "58" "inch" "10"))) = true.
Proof.
  split; [vm_compute; reflexivity|].
  apply (proj2 (proj2 (proj2 (C1_amended "100" "58" "inch" "10")))); reflexivity.
Defined.

(** A price of -5 on a width of 10 inches: the price per square foot is
    -21.0630. *)
Lemma C1_counterexample : ~ C1_claim "-5" "10" "inch" "0".
Proof.
  unfold C1_claim. intros H. specialize (H eq_refl).
  destruct H as [_ [_ H]]. vm_compute in H. discriminate H.
Qed.

(** Without the finiteness: a price and a width of [10^308] with a mark-up
    of 100 percent overflow to [Infinity / Infinity]. *)
Example overflowing_price :
  computeClientMetrics ("1" ++ zeros 308) ("1" ++ zeros 308) "inch" "100" =
  {| final_price_per_unit := "Infinity"; price_per_sqfoot := "NaN";
     final_cost := "Infinity" |}.
Proof. vm_compute. reflexivity. Qed.

Example negative_price :
  computeClientMetrics "-5" "10" "inch" "0" =
  {| final_price_per_unit := "-5.00"; price_per_sqfoot := "-21.0630";
     final_cost := "-5.00" |}.
Proof. vm_compute. reflexivity. Qed.




(** C9, as the script behaves.  The parsed cost and width are always finite
    numbers.  When the price and the mark-up factor are not below zero and
    the final price is finite, no computed field is NaN or below zero.
    When moreover the final price is below [10^21], the final price and the
    final cost are finite numbers written with two decimals, and so is the
    price per square foot, with four decimals, when it is below [10^21]
    too.  Nothing clamps a negative input, and a width so small that the
    quotient overflows is shown as [Infinity]. *)
Theorem C9_amended (p w u l : string) :
  let price := parseNum p in
  let factor := add one (div (parseNum l) lit_100) in
  let fpu := finalPricePerUnit_of price (parseNum l) in
  let pps := pricePerSqft_of fpu (denom_of (widthInInch_of (parseNum w) u)) in
  let m := computeClientMetrics p w u l in
  isFinite price = true /\ isFinite (parseNum w) = true /\
  (le pzero price = true -> le pzero factor = true -> isFinite fpu = true ->
   le pzero (Number (final_price_per_unit m)) = true /\
   le pzero (Number (price_per_sqfoot m)) = true /\
   le pzero (Number (final_cost m)) = true) /\
  (le pzero price = true -> le pzero factor = true -> below_1e21 fpu = true ->
   numeric_nonneg (final_price_per_unit m) /\
   numeric_nonneg (final_cost m) /\
   (exists n, final_price_per_unit m = fixed_digits n 2 /\
              final_cost m = fixed_digits n 2) /\
   (below_1e21 pps = true ->
    numeric_nonneg (price_per_sqfoot m) /\
    exists n, price_per_sqfoot m = fixed_digits n 4)).
Proof.
  intros price factor fpu pps m.
  split; [apply parseNum_finite|]. split; [apply parseNum_finite|].
  assert (Hsign : le pzero price = true -> le pzero factor = true ->
                  isFinite fpu = true ->
                  le pzero fpu = true /\ le pzero pps = true).
  { intros Hp Hf Hfin.
    pose proof (finalPricePerUnit_nonneg _ _ Hp Hf Hfin) as Hfpu.
    split; [exact Hfpu|]. now apply pricePerSqft_nonneg. }
  split.
  - intros Hp Hf Hfin. destruct (Hsign Hp Hf Hfin) as [H1 H2].
    repeat split; apply signed_le_pzero, Number_toFixed_nonneg; assumption.
  - intros Hp Hf Hb.
    destruct (Hsign Hp Hf (below_1e21_finite _ Hb)) as [H1 H2].
    assert (Hfp : numeric_nonneg (toFixed fpu 2)).
    { split; [apply Number_toFixed_is_finite; [exact Hb|lia]|].
      now apply signed_le_pzero, Number_toFixed_nonneg. }
    split; [exact Hfp|]. split; [exact Hfp|].
    split.
    + destruct (toFixed_fixed_digits fpu 2 Hb H1) as [n Hn].
      exists n. split; exact Hn.
    + intros Hq. split.
      * split; [apply Number_toFixed_is_finite; [exact Hq|lia]|].
        now apply signed_le_pzero, Number_toFixed_nonneg.
      * exact (toFixed_fixed_digits pps 4 Hq H2).
Qed.

Lemma C9_amended_witness :
  numeric_nonneg (final_cost (computeClientMetrics "12.50" "58" "cm" "5")) /\
  numeric_nonneg (price_per_sqfoot (computeClientMetrics "12.50" "58" "cm" "5")).
Proof.
  destruct (proj2 (proj2 (proj2 (C9_amended "12.50" "58" "cm" "5"))))
    as [_ [H1 [_ H2]]]; try reflexivity.
  split; [exact H1|]. apply H2. reflexivity.
Defined.

(** A price of -5: the final price per unit is -5.00. *)
Lemma C9_counterexample : ~ C9_claim "-5" "10" "inch" "0".
Proof.
  unfold C9_claim, numeric_nonneg. intros [[_ H] _]. vm_compute in H. discriminate H.
Qed.

(** A price of 1 on a width of [10^-320] inches: the final price is finite,
    and the price per square foot overflows. *)
Example tiny_width_overflows :
  parseNum tiny_width = S754_finite false 2024 (-1074) /\
  computeClientMetrics "1" tiny_width "inch" "0" =
  {| final_price_per_unit := "1.00"; price_per_sqfoot := "Infinity";
     final_cost := "1.00" |}.
Proof. split; vm_compute; reflexivity. Qed.

End MetricFacts.

Module PopulateFacts.
Import JS JSFacts ComponentForm.














(** A final price of [0] is a value the server supplied, and a falsy one:
    the field takes the local value. *)
Example zero_is_blank :
  ~ C3_claim numeric_response empty_page /\
  populateFromItemResponse (Some numeric_response) empty_page =
  Returned
    (with_type_name (Some "Linen") (Some "Linen")
       (with_costs (Some "12.5") (Some "58") (Some "inch")
          (Some "12.50") (Some "9.0789") (Some "13.75") empty_page)).
Proof.
  split; [|vm_compute; reflexivity].
  unfold C3_claim. intros [d' [m [H1 [H2 [H3 _]]]]].
  specialize (H3 ltac:(discriminate)).
  vm_compute in H1, H2. injection H1 as <-. injection H2 as <-.
  vm_compute in H3. discriminate H3.
Qed.

(** A width unit that is a number: [toLowerCase] throws after the fields
    of the response are written, and the derived fields stay empty. *)
Example numeric_unit_throws :
  populateFromItemResponse (Some numeric_unit_response) empty_page =
  Threw (with_costs (Some "20") (Some "58") (Some "1") (Some "") (Some "") (Some "")
           empty_page).
Proof. vm_compute. reflexivity. Qed.

End PopulateFacts.

Module ChainFacts.
Import JS ComponentForm.

(** ** The requests of the chain *)




















(** *** The quality an item request carries *)

















Example selecting_a_quality_sends_one_request :
  requests (run fabric_world [QualityChange "1"; QualityChange ""; CategoryChange ""]) =
  [types_by_quality "FABRIC" "1" ""].
Proof. reflexivity. Qed.

End ChainFacts.

Module StaleFacts.
Import JS ComponentForm.

(** ** Responses are applied as they arrive *)

Lemma fold_appendChild (os : list option_el) : forall s,
  fold_left appendChild os s =
  {| options := options s ++ os; selectedIndex := selectedIndex s |}.
Proof.
  induction os as [|o os IH]; intros s; simpl.
  - rewrite app_nil_r. now destruct s.
  - rewrite IH. simpl. now rewrite <- List.app_assoc.
Qed.

Lemma product_options_on_product_change (w : world) :
  product_options (on_product_change w) = product_options w.
Proof.
  unfold on_product_change, product_options.
  destruct (productEl (dom w)) as [p|] eqn:E; [|now rewrite E].
  match goal with |- context [if ?b then _ else _] => destruct b end;
    simpl; now rewrite E.
Qed.

(** A [types_by_quality] response that arrives with rows replaces the
    product options, whichever quality is selected by then. *)
Lemma resume_types_overwrites (prev : string) (row0 : row) (rows : list row)
    (item : item_response) (w : world) :
  productEl (dom w) <> None ->
  product_options (resume_types prev true (Json (row0 :: rows) item) w) =
  Some (rendered (row0 :: rows)).
Proof.
  intros Hp. unfold resume_types.
  destruct (productEl (dom w)) as [p|]; [|congruence].
  cbv iota beta.
  destruct (truthy prev).
  - rewrite product_options_on_product_change.
    unfold product_options. simpl.
    rewrite fold_appendChild. reflexivity.
  - unfold product_options. simpl.
    rewrite fold_appendChild. reflexivity.
Qed.

Lemma select_value_set_set (a b : string) (q : select) :
  select_value (set_select_value b (set_select_value a q)) =
  select_value (set_select_value b q).
Proof. reflexivity. Qed.

Lemma quality_change_shape (w : world) (v : string) :
  ready w -> offers w v ->
  let w' := step w (QualityChange v) in
  inflight w' =
    (inflight w ++
     [(next_id w,
       (await_types (match productEl (dom w) with
                     | Some p => select_value p
                     | None => ""
                     end), true))])%list /\
  next_id w' = S (next_id w) /\
  cfg w' = cfg w /\
  categoryEl (dom w') = categoryEl (dom w) /\
  (exists q, qualityEl (dom w) = Some q /\
             qualityEl (dom w') = Some (set_select_value v q)) /\
  productEl (dom w') = Some (cleared "-- Loading product types --").
Proof.
  intros [[c [Hc Hct]] Hq Hp Hu] [Hv [q [Hq' Hsel]]].
  destruct (productEl (dom w)) as [p|] eqn:Ep; [|congruence].
  unfold step. rewrite Hq'. rewrite Hsel.
  unfold on_quality_change, loadTypesByQuality. cbn.
  rewrite Hc, Ep, Hct, Hv, Hu. cbn.
  repeat (split; [reflexivity|]).
  split; [exact Hc|]. split; [|reflexivity].
  exists q. split; reflexivity.
Qed.

Lemma take_inflight_fresh (id : nat) (k : pending * bool)
    (l r : list (nat * (pending * bool))) :
  (forall i k', In (i, k') l -> i <> id) ->
  take_inflight id (l ++ (id, k) :: r) = Some (k, (l ++ r)%list).
Proof.
  induction l as [|[i k'] l IH]; intros H; simpl.
  - now rewrite Nat.eqb_refl.
  - assert (Hi : i <> id) by (apply (H i k'); now left).
    apply Nat.eqb_neq in Hi. rewrite Hi.
    rewrite IH; [reflexivity|].
    intros j kj Hj. apply (H j kj). now right.
Qed.

Lemma grows_refl (w w' : world) :
  productEl (dom w') = productEl (dom w) -> inflight w' = inflight w -> grows w w'.
Proof.
  intros Hp Hi. split; [now rewrite Hp|]. exists []. now rewrite app_nil_r.
Qed.

Lemma on_product_change_grows (w : world) : grows w (on_product_change w).
Proof.
  unfold on_product_change.
  destruct (productEl (dom w)) as [p|] eqn:E; [|now apply grows_refl].
  match goal with |- context [if ?b then _ else _] => destruct b end.
  - split; [simpl; now rewrite E|]. simpl. eauto.
  - apply grows_refl; simpl; [now rewrite E|reflexivity].
Qed.

Lemma resume_types_grows (prev : string) (sent : bool) (r : reply) (w : world) :
  grows w (resume_types prev sent r w).
Proof.
  unfold resume_types.
  destruct (productEl (dom w)) as [p|] eqn:E; [|now apply grows_refl].
  assert (Hc : forall t, grows w (with_dom (with_selects (qualityEl (dom w))
                                     (Some (cleared t)) (dom w)) w)).
  { intros t. split; [simpl; congruence|]. exists []. simpl. now rewrite app_nil_r. }
  destruct (if sent then r else Failed) as [|[|row rows] item]; try apply Hc.
  destruct (truthy prev).
  - match goal with |- grows w (on_product_change ?w1) =>
      destruct (on_product_change_grows w1) as [G1 [extra G2]] end.
    split.
    + intros _. apply G1. simpl. congruence.
    + exists extra. rewrite G2. reflexivity.
  - split; [simpl; congruence|]. exists []. simpl. now rewrite app_nil_r.
Qed.

Lemma qualityEl_on_product_change (w : world) :
  qualityEl (dom (on_product_change w)) = qualityEl (dom w).
Proof.
  unfold on_product_change.
  destruct (productEl (dom w)) as [p|]; [|reflexivity].
  match goal with |- context [if ?b then _ else _] => destruct b end; reflexivity.
Qed.

(** A resumed [loadTypesByQuality] does not look at the quality select. *)
Lemma qualityEl_resume_types (prev : string) (sent : bool) (r : reply) (w : world) :
  qualityEl (dom (resume_types prev sent r w)) = qualityEl (dom w).
Proof.
  unfold resume_types.
  destruct (productEl (dom w)) as [p|]; [|reflexivity].
  destruct (if sent then r else Failed) as [|[|row rows] item]; try reflexivity.
  destruct (truthy prev); [|reflexivity].
  now rewrite qualityEl_on_product_change.
Qed.

(** The response to a [types_by_quality] request that is in flight, when it
    arrives with rows, becomes the product options; the quality select is
    not consulted, and what else is in flight stays in flight. *)
Lemma settle_types (w : world) (id : nat) (prev : string) (row0 : row)
    (rows : list row) (item : item_response)
    (rest : list (nat * (pending * bool))) :
  productEl (dom w) <> None ->
  take_inflight id (inflight w) = Some ((await_types prev, true), rest) ->
  let w' := step w (Settle id (Json (row0 :: rows) item)) in
  product_options w' = Some (rendered (row0 :: rows)) /\
  qualityEl (dom w') = qualityEl (dom w) /\
  productEl (dom w') <> None /\
  exists extra, inflight w' = (rest ++ extra)%list.
Proof.
  intros Hp Ht. unfold step. rewrite Ht. cbn [resume].
  set (w0 := {| dom := dom w; cfg := cfg w; next_id := next_id w;
                inflight := rest; requests := requests w |}).
  split; [now apply resume_types_overwrites|].
  split; [apply (qualityEl_resume_types prev true _ w0)|].
  destruct (resume_types_grows prev true (Json (row0 :: rows) item) w0) as [G1 G2].
  split; [now apply G1|exact G2].
Qed.

(** C4, as the script behaves: with [A]'s load in flight when [B] is
    selected, each response is written to the product options as it
    arrives.  [A]'s response shows [A]'s types although the quality select
    is on [B]; the options end as those of the response that arrives last:
    [B]'s when [A] answers first, [A]'s when [B] answers first. *)
Theorem C4_last_response_wins (w : world) (A B : string)
    (rowA rowB : row) (rowsA rowsB : list row) (item : item_response) :
  ready w -> fresh w -> offers w A -> offers w B ->
  (let w' := run w [QualityChange A; QualityChange B;
                    Settle (next_id w) (Json (rowA :: rowsA) item)] in
   quality_value (dom w') = B /\
   product_options w' = Some (rendered (rowA :: rowsA))) /\
  product_options (run w (in_order w A B (rowA :: rowsA) (rowB :: rowsB) item)) =
    Some (rendered (rowB :: rowsB)) /\
  product_options (run w (out_of_order w A B (rowA :: rowsA) (rowB :: rowsB) item)) =
    Some (rendered (rowA :: rowsA)).
Proof.
  intros Hr Hf HA HB.
  destruct (quality_change_shape w A Hr HA) as [I1 [N1 [C1 [K1 [[q [Q0 Q1]] P1]]]]].
  set (w1 := step w (QualityChange A)) in *.
  assert (Hr1 : ready w1).
  { destruct Hr as [[c [Hc Hct]] Hq Hp Hu]. constructor.
    - exists c. now rewrite K1.
    - now rewrite Q1.
    - now rewrite P1.
    - now rewrite C1. }
  assert (HsB : select_value (set_select_value B (set_select_value A q)) = B).
  { destruct HB as [_ [q' [Hq' Hs]]]. rewrite select_value_set_set. congruence. }
  assert (HB1 : offers w1 B).
  { split; [apply HB|]. exists (set_select_value A q). now split. }
  destruct (quality_change_shape w1 B Hr1 HB1) as [I2 [N2 [C2 [K2 [[q1 [Q2 Q3]] P2]]]]].
  set (w2 := step w1 (QualityChange B)) in *.
  assert (Hq2 : quality_value (dom w2) = B).
  { unfold quality_value. rewrite Q3. congruence. }
  rewrite P1 in I2. rewrite I1, N1 in I2.
  set (pa := (await_types match productEl (dom w) with
                          | Some p => select_value p
                          | None => ""
                          end, true)) in *.
  set (pb := (await_types (select_value (cleared "-- Loading product types --")), true)) in *.
  assert (HtA : take_inflight (next_id w) (inflight w2) =
                Some (pa, (inflight w ++ [(S (next_id w), pb)])%list)).
  { rewrite I2, <- List.app_assoc. simpl.
    apply take_inflight_fresh. intros i k Hi. apply Hf in Hi. lia. }
  assert (HtB : take_inflight (S (next_id w)) (inflight w2) =
                Some (pb, (inflight w ++ [(next_id w, pa)])%list)).
  { rewrite I2.
    replace ((inflight w ++ [(next_id w, pa)]) ++ [(S (next_id w), pb)])%list
      with ((inflight w ++ [(next_id w, pa)]) ++ (S (next_id w), pb) :: [])%list
      by reflexivity.
    rewrite take_inflight_fresh; [now rewrite app_nil_r|].
    intros i k Hi. apply in_app_or in Hi. destruct Hi as [Hi|[Hi|[]]].
    - apply Hf in Hi. lia.
    - inversion Hi. lia. }
  assert (Hp2 : productEl (dom w2) <> None) by (rewrite P2; discriminate).
  destruct (settle_types w2 (next_id w) _ rowA rowsA item _ Hp2 HtA)
    as [HoA [HqA [HpA [extraA HeA]]]].
  split; [|split].
  - unfold run. cbn [fold_left]. fold w1. fold w2. cbv zeta.
    split; [|exact HoA].
    unfold quality_value in *. now rewrite HqA.
  - unfold in_order, run. cbn [fold_left]. fold w1. fold w2.
    set (w3 := step w2 (Settle (next_id w) (Json (rowA :: rowsA) item))) in *.
    assert (Ht3 : take_inflight (S (next_id w)) (inflight w3) =
                  Some (pb, (inflight w ++ extraA)%list)).
    { rewrite HeA, <- List.app_assoc. simpl.
      apply take_inflight_fresh. intros i k Hi. apply Hf in Hi. lia. }
    now destruct (settle_types w3 (S (next_id w)) _ rowB rowsB item _ HpA Ht3).
  - unfold out_of_order, run. cbn [fold_left]. fold w1. fold w2.
    destruct (settle_types w2 (S (next_id w)) _ rowB rowsB item _ Hp2 HtB)
      as [_ [_ [Hp3 [extra He]]]].
    set (w3 := step w2 (Settle (S (next_id w)) (Json (rowB :: rowsB) item))) in *.
    assert (Ht3 : exists rest, take_inflight (next_id w) (inflight w3) = Some (pa, rest)).
    { rewrite He, <- List.app_assoc. simpl. eexists.
      apply take_inflight_fresh. intros i k Hi. apply Hf in Hi. lia. }
    destruct Ht3 as [rest Ht3].
    now destruct (settle_types w3 (next_id w) _ rowA rowsA item _ Hp3 Ht3).
Qed.

Lemma C4_last_response_wins_witness :
  product_options
    (run fabric_world (out_of_order fabric_world "1" "2" premium_types standard_types no_item)) =
  Some (rendered premium_types).
Proof.
  apply (C4_last_response_wins fabric_world "1" "2" _ _ _ _ no_item).
  - constructor.
    + exists "fabric". split; reflexivity.
    + discriminate.
    + discriminate.
    + reflexivity.
  - intros i k [].
  - split; [reflexivity|]. eexists. split; reflexivity.
  - split; [reflexivity|]. eexists. split; reflexivity.
Defined.

(** Quality 1 then quality 2, the types of quality 2 arriving first: the
    product select ends with the types of quality 1. *)
Lemma C4_counterexample :
  ~ C4_claim fabric_world "1" "2" premium_types standard_types no_item.
Proof.
  unfold C4_claim. intros [_ H]. vm_compute in H. discriminate H.
Qed.

End StaleFacts.

Module SafeFetchFacts.
Import JS ComponentForm.

Section Facts.
Variable fetch : string -> fetch_options -> settled response.
Variable CSRF_TOKEN : string.
Variable URLSearchParams_toString : list (string * string) -> string.
Variable JSON_stringify : list (string * string) -> string.
Variable JSON_parse : string -> option json.

Let call := safeFetch fetch CSRF_TOKEN URLSearchParams_toString JSON_stringify JSON_parse.

(** A call of [safeFetch] never throws: it returns a promise. *)
Lemma safeFetch_returns_promise url params opts :
  exists p, call url params opts = Normal p.
Proof. unfold call, safeFetch, async. eauto. Qed.

(** The throw inside the [try] block is caught by its own [catch]: on a
    status that is not a success the error that leaves [read_response]
    carries the text of the body, parsed or not. *)
Lemma read_response_not_ok (res : response) (t : string) :
  ok res = false ->
  read_response JSON_parse res t =
  Throw {| message := status_message res; e_status := Some (status res);
           e_body := Some (BodyText t) |}.
Proof.
  intros Hok. unfold read_response, parse_or_throw. rewrite Hok. simpl.
  destruct (truthy t); [destruct (JSON_parse t)|]; reflexivity.
Qed.

Lemma read_response_ok (res : response) (t : string) (j : json) :
  ok res = true -> truthy t = true -> JSON_parse t = Some j ->
  read_response JSON_parse res t = Normal j.
Proof.
  intros Hok Ht Hj. unfold read_response, parse_or_throw.
  now rewrite Hok, Ht, Hj.
Qed.

Hypothesis answer : response.
Hypothesis network : forall u o, fetch u o = Fulfilled answer.

Lemma safeFetch_body_reads url params opts :
  truthy url = true ->
  safeFetch_body fetch CSRF_TOKEN URLSearchParams_toString JSON_stringify JSON_parse
    url params opts =
  read_response JSON_parse answer
    (match text answer with Some t => t | None => "" end).
Proof.
  intros Hu. unfold safeFetch_body. rewrite Hu. cbn [negb].
  destruct (String.eqb _ "GET"); [|destruct (String.eqb _ "json")];
    now rewrite network.
Qed.

(** C6, where the script departs from it: the server answers 4xx/5xx with
    a JSON body; the promise is rejected with the status, and with the
    body as raw text rather than as the parsed object. *)
Theorem C6_rejects_with_raw_text url params opts (t : string) (j : json) :
  truthy url = true ->
  ok answer = false -> text answer = Some t -> JSON_parse t = Some j ->
  call url params opts =
  Normal (Rejected {| message := status_message answer;
                      e_status := Some (status answer);
                      e_body := Some (BodyText t) |}).
Proof.
  intros Hu Hok Ht Hj. unfold call, safeFetch, async.
  rewrite safeFetch_body_reads by exact Hu.
  now rewrite Ht, read_response_not_ok.
Qed.

(** On success with a JSON body the promise is fulfilled with the parsed
    value. *)
Lemma safeFetch_success url params opts (t : string) (j : json) :
  truthy url = true ->
  ok answer = true -> text answer = Some t -> truthy t = true ->
  JSON_parse t = Some j ->
  call url params opts = Normal (Fulfilled j).
Proof.
  intros Hu Hok Ht Htt Hj. unfold call, safeFetch, async.
  rewrite safeFetch_body_reads by exact Hu.
  now rewrite Ht, (read_response_ok _ _ j).
Qed.

End Facts.

Lemma C6_rejects_with_raw_text_witness :
  safeFetch (fun _ _ => Fulfilled bad_request) "token"
    (fun _ => "component_id=3&name=Red") (fun _ => "") parse_error_text
    "/components/colors/create/" [("component_id", "3"); ("name", "Red")]
    {| opt_method := "POST"; opt_contentType := "" |} =
  Normal (Rejected {| message := "Fetch 400 Bad Request"; e_status := Some 400%N;
                      e_body := Some (BodyText error_text) |}).
Proof.
  apply (C6_rejects_with_raw_text (fun _ _ => Fulfilled bad_request) "token"
           (fun _ => "component_id=3&name=Red") (fun _ => "") parse_error_text
           bad_request (fun _ _ => eq_refl) _ _ _ error_text error_object);
    reflexivity.
Defined.

End SafeFetchFacts.

Module CostingFacts.
Import JS Costing.

(** ** The canonical SKU field *)

Lemma recompute_container (url : string) (server : answers) (p : page)
    (boxes : list checkbox) :
  colorsContainer p = Some boxes ->
  recompute url server p =
  match calls_for boxes with
  | [] => with_preview (set_preview (skuPreviewList p) NoColorsSelected)
            (assign (skuInput p) "")
            (match colorSelect p with
             | None => assign (legacyColorField p) ""
             | Some _ => legacyColorField p
             end) p
  | calls =>
      resolve (AllPending calls) (map (fetchSkuForColor url server) calls)
        (with_preview (set_preview (skuPreviewList p) GeneratingPreviews)
           (skuInput p) (assign (legacyColorField p) "none") p)
  end.
Proof.
  intros H. unfold recompute, updateSkuPreviews. rewrite H.
  destruct (calls_for boxes); reflexivity.
Qed.

(** With the preview list on the page, the SKU field is the fetched SKU of
    the single checked colour, and empty for none or several. *)
Lemma sku_field_with_preview_list (url : string) (server : answers) (p : page)
    (pv : preview) :
  skuPreviewList p = Some pv -> C7_claim url server p.
Proof.
  intros Hpv boxes old Hb Hs. rewrite (recompute_container _ _ _ _ Hb). split.
  - intros c Hc. rewrite Hc. simpl. rewrite Hpv. simpl. now rewrite Hs.
  - intros Hn. destruct (calls_for boxes) as [|c [|c' r]].
    + simpl. now rewrite Hs.
    + now elim Hn.
    + simpl. rewrite Hpv. simpl. now rewrite Hs.
Qed.

(** C7, where the script departs from it: without the preview list, the
    callback of [Promise.all] returns before it reaches the SKU field, which
    keeps what it held. *)
Theorem C7_sku_field_kept_without_preview_list (url : string) (server : answers)
    (p : page) (boxes : list checkbox) :
  colorsContainer p = Some boxes -> calls_for boxes <> [] ->
  skuPreviewList p = None ->
  skuInput (recompute url server p) = skuInput p.
Proof.
  intros Hb Hc Hpv. rewrite (recompute_container _ _ _ _ Hb).
  destruct (calls_for boxes) as [|c r]; [congruence|].
  simpl. now rewrite Hpv.
Qed.

Lemma C7_sku_field_kept_witness :
  skuInput (recompute default_compute_sku sku_server page_without_preview_list) =
  Some "LIN-OLD-BLU".
Proof.
  apply (C7_sku_field_kept_without_preview_list default_compute_sku sku_server
           page_without_preview_list red_checked);
    [reflexivity|discriminate|reflexivity].
Defined.

Example C7_claim_fails :
  ~ C7_claim default_compute_sku sku_server page_without_preview_list.
Proof.
  intros H. destruct (H red_checked "LIN-OLD-BLU" eq_refl eq_refl) as [H1 _].
  specialize (H1 _ eq_refl). vm_compute in H1. discriminate H1.
Qed.

(** ** The debounce *)

#[local] Arguments clearTimeout : simpl never.

Lemma clearTimeout_single (id : nat) (due : N) : clearTimeout id [(id, due)] = [].
Proof. unfold clearTimeout. simpl. now rewrite Nat.eqb_refl. Qed.

(** [parseConfig] always leaves an endpoint, so every call is a request. *)
Lemma requests_of_cfg (w : world) (calls : list sku_call) :
  requests_of (cfg_ajax_compute_sku w) calls = calls.
Proof.
  unfold requests_of, cfg_ajax_compute_sku, parseConfig_compute_sku, or_else.
  now destruct (truthy (configured_compute_sku w)) eqn:E; [rewrite E|].
Qed.

Lemma calls_of_updateSkuPreviews (p : page) (boxes : list checkbox) :
  colorsContainer p = Some boxes ->
  calls_of (snd (updateSkuPreviews p)) = calls_for boxes.
Proof.
  intros H. unfold updateSkuPreviews. rewrite H.
  destruct (calls_for boxes); reflexivity.
Qed.

Lemma colorsContainer_updateSkuPreviews (p : page) :
  colorsContainer (fst (updateSkuPreviews p)) = colorsContainer p.
Proof.
  unfold updateSkuPreviews.
  destruct (colorsContainer p) as [boxes|] eqn:E.
  - destruct (calls_for boxes); exact E.
  - destruct (colorSelect p) as [[v t]|]; [destruct (truthy v)|]; exact E.
Qed.

Lemma advance_idle (t : N) (w : world) :
  (forall x, In x (timeouts w) -> (t < snd x)%N) ->
  advance t w =
  {| pg := pg w; configured_compute_sku := configured_compute_sku w;
     now := N.max (now w) t;
     next_timer := next_timer w; timeouts := timeouts w;
     skuPreviewTimer := skuPreviewTimer w; batches := batches w |}.
Proof.
  intros H. unfold advance.
  assert (E : fire_due (List.length (timeouts w)) t w = w).
  { destruct (List.length (timeouts w)); [reflexivity|]. simpl.
    destruct (find (fun x => (snd x <=? t)%N) (timeouts w)) as [[id due]|] eqn:F;
      [|reflexivity].
    apply find_some in F. destruct F as [Hin Hle].
    apply H in Hin. simpl in *. apply N.leb_le in Hle. lia. }
  now rewrite E.
Qed.

(** A trigger inside the quiet window moves the timeout and sends nothing. *)
Lemma trigger_armed (w : world) (t t' : N) (tr : trigger) (bs : list (list sku_call)) :
  armed w t bs -> (t <= t')%N -> (t' < t + wait)%N ->
  armed (trigger_at t' tr w) t' bs.
Proof.
  intros [Hn [Hb [id [Ht Hs]]]] Hle Hlt.
  unfold trigger_at. rewrite advance_idle.
  - unfold debounceSkuPreview. cbn. rewrite Hs, Ht, clearTimeout_single.
    assert (Hmax : N.max (now w) t' = t') by lia.
    unfold armed. cbn. rewrite Hmax.
    split; [reflexivity|]. split; [exact Hb|].
    exists (next_timer w). split; reflexivity.
  - rewrite Ht. intros x [<-|[]]. simpl. exact Hlt.
Qed.

Lemma triggers_armed (l : list (N * trigger)) : forall w t bs,
  armed w t bs -> spaced t l -> armed (triggers w l) (last_time t l) bs.
Proof.
  induction l as [|[t' tr] l IH]; intros w t bs Ha Hs; simpl.
  - exact Ha.
  - destruct Hs as [[H1 H2] H3]. apply IH; [|exact H3].
    apply (trigger_armed w t); [exact Ha|exact H1|]. unfold wait. lia.
Qed.

Lemma colorsContainer_fire_due (fuel : nat) (t : N) : forall w,
  colorsContainer (pg (fire_due fuel t w)) = colorsContainer (pg w).
Proof.
  induction fuel as [|fuel IH]; intros w; simpl; [reflexivity|].
  destruct (find _ (timeouts w)) as [[id due]|]; [|reflexivity].
  rewrite IH. unfold run_callback. cbn [pg].
  pose proof (colorsContainer_updateSkuPreviews (pg w)) as H.
  destruct (updateSkuPreviews (pg w)) as [p1 k]. exact H.
Qed.

(** Once the quiet window has passed, the timeout fires once. *)
Lemma armed_fires (w : world) (t T : N) (bs : list (list sku_call))
    (boxes : list checkbox) :
  armed w t bs -> (t + wait <= T)%N ->
  colorsContainer (pg w) = Some boxes ->
  batches (advance T w) = (bs ++ [calls_for boxes])%list /\
  timeouts (advance T w) = [].
Proof.
  intros [Hn [Hb [id [Ht Hs]]]] HT Hc.
  unfold advance. rewrite Ht. cbn [List.length fire_due].
  rewrite Ht. cbn [find snd].
  assert (E : (t + wait <=? T)%N = true) by (apply N.leb_le; exact HT).
  rewrite E. rewrite clearTimeout_single.
  unfold run_callback. cbn [pg].
  pose proof (calls_of_updateSkuPreviews (pg w) boxes Hc) as Hk.
  destruct (updateSkuPreviews (pg w)) as [p1 k]. simpl in Hk.
  cbn. rewrite Hb, Hk.
  split; [|reflexivity]. f_equal. f_equal.
  apply (requests_of_cfg w).
Qed.

Lemma fire_due_single (t : N) (w : world) :
  single_timer w -> (now w <= t)%N ->
  let w' := fire_due (List.length (timeouts w)) t w in
  (now w' <= t)%N /\ skuPreviewTimer w' = skuPreviewTimer w /\
  next_timer w' = next_timer w /\
  (timeouts w' = [] \/
   exists id due, timeouts w' = [(id, due)] /\ skuPreviewTimer w = Some id /\ (t < due)%N).
Proof.
  intros [H|[id [due [H Hs]]]] Hn; rewrite H; simpl.
  - rewrite H. simpl. repeat split; auto.
  - rewrite H. simpl. destruct (due <=? t)%N eqn:E.
    + rewrite clearTimeout_single. unfold run_callback. cbn [pg].
      destruct (updateSkuPreviews (pg w)) as [p1 k]. cbn.
      apply N.leb_le in E. repeat split; auto. lia.
    + apply N.leb_gt in E. repeat split; auto. right. exists id, due. auto.
Qed.

(** The first trigger, whatever was pending before it. *)
Lemma first_trigger_armed (w : world) (t : N) (tr : trigger) :
  single_timer w -> (now w <= t)%N ->
  armed (trigger_at t tr w) t (batches (advance t w)).
Proof.
  intros Hs Hn. unfold trigger_at.
  destruct (fire_due_single t w Hs Hn) as [Hn' [Hs' [_ Ht']]].
  unfold advance at 1. unfold advance at 1.
  set (w' := fire_due (List.length (timeouts w)) t w) in *.
  unfold debounceSkuPreview. cbn.
  assert (Hmax : N.max (now w') t = t) by lia.
  unfold armed. cbn. fold w'. rewrite Hmax.
  split; [reflexivity|]. split; [reflexivity|].
  exists (next_timer w'). split; [|reflexivity].
  destruct Ht' as [E|[id [due [E [Hid _]]]]].
  - rewrite E. now destruct (skuPreviewTimer w').
  - rewrite Hs', Hid, E, clearTimeout_single. reflexivity.
Qed.

Lemma colorsContainer_flip (tr : trigger) (p : page) :
  colorsContainer p <> None -> colorsContainer (flip tr p) <> None.
Proof.
  destruct tr; simpl; [|auto].
  destruct (colorsContainer p); [discriminate|congruence].
Qed.

Lemma colorsContainer_triggers (l : list (N * trigger)) : forall w,
  colorsContainer (pg w) <> None -> colorsContainer (pg (triggers w l)) <> None.
Proof.
  induction l as [|[t tr] l IH]; intros w H; simpl; [exact H|].
  apply IH. unfold trigger_at, debounceSkuPreview. cbn [pg].
  apply colorsContainer_flip.
  unfold advance. cbn [pg]. now rewrite colorsContainer_fire_due.
Qed.

(** C8.  Colour toggles (and changes of the fields the preview depends on)
    that follow one another within 100 ms, the first at time [t1]: once the
    220 ms quiet window has passed after the last one, [updateSkuPreviews]
    has run exactly once since the first toggle, and that run sent one
    request per checked colour, in document order (none when no colour is
    left checked). *)
Theorem C8_one_batch (w : world) (t1 : N) (tr1 : trigger)
    (rest : list (N * trigger)) (T : N) :
  single_timer w -> (now w <= t1)%N ->
  spaced t1 rest ->
  (last_time t1 rest + wait <= T)%N ->
  colorsContainer (pg w) <> None ->
  exists boxes,
    colorsContainer (pg (triggers w ((t1, tr1) :: rest))) = Some boxes /\
    batches (advance T (triggers w ((t1, tr1) :: rest))) =
      (batches (advance t1 w) ++
       [map (fun ch => {| colorId := cb_value ch;
                          colorName := or_else (cb_colorName ch) (cb_value ch) |})
            (filter cb_checked boxes)])%list /\
    timeouts (advance T (triggers w ((t1, tr1) :: rest))) = [].
Proof.
  intros Hs Hn Hsp HT Hc.
  pose proof (colorsContainer_triggers ((t1, tr1) :: rest) w Hc) as Hp.
  destruct (colorsContainer (pg (triggers w ((t1, tr1) :: rest)))) as [boxes|] eqn:E;
    [|congruence].
  exists boxes. split; [reflexivity|].
  pose proof (first_trigger_armed w t1 tr1 Hs Hn) as Ha.
  pose proof (triggers_armed rest _ _ _ Ha Hsp) as Ha'.
  change (triggers (trigger_at t1 tr1 w) rest) with (triggers w ((t1, tr1) :: rest)) in Ha'.
  exact (armed_fires _ _ T _ boxes Ha' HT E).
Qed.

Lemma C8_one_batch_witness :
  batches (advance 1340%N (triggers three_colours three_toggles)) =
  [[ {| colorId := "7"; colorName := "Red" |};
     {| colorId := "8"; colorName := "Blue" |};
     {| colorId := "9"; colorName := "9" |} ]].
Proof.
  destruct (C8_one_batch three_colours 1000 (ToggleColour 0)
              [(1050%N, ToggleColour 1); (1120%N, ToggleColour 2)] 1340)
    as [boxes [Hb [Hbatch _]]].
  - left. reflexivity.
  - vm_compute. discriminate.
  - simpl. repeat split; vm_compute; discriminate.
  - vm_compute. discriminate.
  - discriminate.
  - change ((1000%N, ToggleColour 0)
            :: [(1050%N, ToggleColour 1); (1120%N, ToggleColour 2)])
      with three_toggles in *.
    rewrite Hbatch. vm_compute in Hb. injection Hb as <-. reflexivity.
Defined.

End CostingFacts.

Module ChatFacts.
Import JS Chat.

(** C10.  [sendMessage] either sends nothing and leaves the input as it
    is, or the socket is open, the trimmed input is non-empty and at most
    2000 characters long, and exactly one frame is sent: the trimmed text
    with the resolved user name (["anonymous"] by default). *)
Theorem C10_sendMessage (c : chat) :
  (frames (sendMessage c) = frames c /\ input (sendMessage c) = input c) \/
  (exists value,
     socket c = Some OPEN /\ input c = Some value /\
     trim value <> "" /\ (String.length (trim value) <= MAX_PAYLOAD_LENGTH)%nat /\
     frames (sendMessage c) =
       (frames c ++ [{| message := trim value;
                        username :=
                          if truthy (GLOBAL_CHAT_USERNAME c) then GLOBAL_CHAT_USERNAME c
                          else if truthy (dataset_username c) then dataset_username c
                          else "anonymous" |}])%list /\
     input (sendMessage c) = Some "").
Proof.
  unfold sendMessage.
  destruct (is_open (socket c)) eqn:Eo; simpl; [|now left].
  destruct (input c) as [value|] eqn:Ei; [|now left].
  assert (Et : (if truthy value then trim value else "") = trim value)
    by (destruct value; reflexivity).
  rewrite Et.
  destruct (truthy (trim value)) eqn:Ev; simpl; [|left; now rewrite Ei].
  destruct (MAX_PAYLOAD_LENGTH <? String.length (trim value))%nat eqn:El;
    [left; simpl; now rewrite Ei|].
  destruct (send_throws c); [left; simpl; now rewrite Ei|].
  right. exists value. simpl.
  split; [destruct (socket c) as [[]|]; try discriminate Eo; reflexivity|].
  split; [reflexivity|].
  split; [destruct (trim value); [discriminate Ev|discriminate]|].
  split; [apply Nat.ltb_ge in El; exact El|].
  split; reflexivity.
Qed.

Example sendMessage_trims :
  frames (sendMessage {| socket := Some OPEN; send_throws := false;
                         input := Some "  hello  "; GLOBAL_CHAT_USERNAME := "";
                         dataset_username := ""; lines := []; frames := [] |}) =
  [{| message := "hello"; username := "anonymous" |}].
Proof. reflexivity. Qed.

End ChatFacts.

Module RequestFacts.
Import JS ComponentForm.

(** ** What [safeFetch] hands to [fetch] *)

(** X1.  With a URL, [safeFetch] calls [fetch] exactly once, whatever the
    network does, and reads the response it gets.  The method is the
    upper-cased [opts.method], [GET] by default; the credentials are
    same-origin and the [Accept] header asks for JSON; the CSRF token is
    attached for POST, PUT, PATCH and DELETE and for no other method; a GET
    has no body and carries the parameters in the query string (no [?] when
    there are none); any other method keeps the URL and carries the
    parameters in the body, as JSON when [opts.contentType] is [json] and
    form-encoded otherwise. *)
Theorem safeFetch_request (CSRF_TOKEN : string)
    (URLSearchParams_toString JSON_stringify : list (string * string) -> string)
    (JSON_parse : string -> option json)
    (url : string) (params : list (string * string)) (opts : safeFetch_opts) :
  truthy url = true ->
  let method := toUpperCase (or_else (opt_method opts) "GET") in
  exists fullUrl fetchOpts,
    (forall fetch,
       safeFetch_body fetch CSRF_TOKEN URLSearchParams_toString JSON_stringify
         JSON_parse url params opts =
       bind (await (fetch fullUrl fetchOpts))
         (fun res => read_response JSON_parse res
                       (match text res with Some t => t | None => "" end))) /\
    fo_method fetchOpts = method /\
    fo_credentials fetchOpts = "same-origin" /\
    In ("Accept", "application/json") (fo_headers fetchOpts) /\
    (In method unsafe_methods ->
       In ("X-CSRFToken", CSRF_TOKEN) (fo_headers fetchOpts)) /\
    (~ In method unsafe_methods ->
       forall v, ~ In ("X-CSRFToken", v) (fo_headers fetchOpts)) /\
    (method = "GET" ->
       fo_body fetchOpts = None /\
       fullUrl = url ++ (if truthy (URLSearchParams_toString params)
                         then "?" ++ URLSearchParams_toString params else "")) /\
    (method <> "GET" ->
       fullUrl = url /\
       fo_body fetchOpts =
         Some (if String.eqb (opt_contentType opts) "json"
               then JSON_stringify params
               else URLSearchParams_toString params)).
Proof.
  intros Hu method.
  assert (Hinc : includes unsafe_methods method = true <-> In method unsafe_methods).
  { unfold includes. rewrite existsb_exists. split.
    - intros [x [Hx He]]. apply String.eqb_eq in He. now subst.
    - intros H. exists method. split; [exact H|apply String.eqb_refl]. }
  unfold safeFetch_body. rewrite Hu. cbn [negb]. fold method.
  destruct (String.eqb method "GET") eqn:Eg.
  - apply String.eqb_eq in Eg.
    assert (Hn : includes unsafe_methods method = false) by (rewrite Eg; reflexivity).
    rewrite Hn.
    eexists. eexists. split; [intros fetch; reflexivity|]. cbn.
    split; [reflexivity|]. split; [reflexivity|]. split; [now left|].
    split; [intros H; apply Hinc in H; congruence|].
    split; [intros _ v Hv; simpl in Hv; destruct Hv as [Hv|[]]; discriminate Hv|].
    split; [intros _; split; reflexivity|].
    intros H; now elim H.
  - apply String.eqb_neq in Eg.
    destruct (includes unsafe_methods method) eqn:Ei;
      destruct (String.eqb (opt_contentType opts) "json") eqn:Ej;
      (eexists; eexists; split; [intros fetch; reflexivity|]; cbn;
       split; [reflexivity|]; split; [reflexivity|];
       split; [now left|];
       split; [try (intros _; right; now left);
               intros H; apply Hinc in H; congruence|];
       split; [try (intros H; elim H; apply Hinc; reflexivity);
               intros _ v Hv; destruct Hv as [Hv|[Hv|[]]]; discriminate Hv|];
       split; [intros H; now elim Eg|];
       intros _; split; reflexivity).
Qed.

Lemma safeFetch_request_witness :
  exists fullUrl fetchOpts,
    (forall fetch,
       safeFetch_body fetch "token" (fun _ => "color_id=4") (fun _ => "{}")
         (fun _ => None) "/components/colors/delete/" [("color_id", "4")]
         {| opt_method := "post"; opt_contentType := "" |} =
       bind (await (fetch fullUrl fetchOpts))
         (fun res => read_response (fun _ => None) res
                       (match text res with Some t => t | None => "" end))) /\
    fullUrl = "/components/colors/delete/" /\
    fo_method fetchOpts = "POST" /\
    In ("X-CSRFToken", "token") (fo_headers fetchOpts) /\
    fo_body fetchOpts = Some "color_id=4".
Proof.
  destruct (safeFetch_request "token" (fun _ => "color_id=4") (fun _ => "{}")
              (fun _ => None) "/components/colors/delete/" [("color_id", "4")]
              {| opt_method := "post"; opt_contentType := "" |} eq_refl)
    as [fullUrl [fo [H1 [H2 [_ [_ [H5 [_ [_ H8]]]]]]]]].
  exists fullUrl, fo.
  split; [exact H1|].
  destruct H8 as [H8 H9]; [discriminate|].
  split; [exact H8|]. split; [exact H2|].
  split; [apply H5; simpl; tauto|exact H9].
Defined.

(** ** How the promise of [safeFetch] settles *)

Section Outcomes.
Variable CSRF_TOKEN : string.
Variable URLSearchParams_toString : list (string * string) -> string.
Variable JSON_stringify : list (string * string) -> string.
Variable JSON_parse : string -> option json.

Let call fetch := safeFetch fetch CSRF_TOKEN URLSearchParams_toString JSON_stringify JSON_parse.

(** X2.  On a success status the promise is always fulfilled, never
    rejected: with the parsed body, with the empty object when the body is
    empty or cannot be read, and with the text under [raw] when the body is
    not JSON. *)
Theorem safeFetch_ok_fulfils fetch (answer : response) url params opts :
  truthy url = true -> (forall u o, fetch u o = Fulfilled answer) ->
  ok answer = true ->
  call fetch url params opts =
  Normal (Fulfilled
    match text answer with
    | None | Some "" => JObject []
    | Some t =>
        match JSON_parse t with
        | Some j => j
        | None => JObject [("raw", JString t)]
        end
    end).
Proof.
  intros Hu network Hok. unfold call, safeFetch, async.
  rewrite (SafeFetchFacts.safeFetch_body_reads fetch CSRF_TOKEN URLSearchParams_toString
             JSON_stringify JSON_parse answer network) by assumption.
  unfold read_response, parse_or_throw. rewrite Hok.
  destruct (text answer) as [[|c t]|]; cbn; try reflexivity.
  destruct (JSON_parse (String c t)); reflexivity.
Qed.

(** X3.  The two rejections that are not about the status: without a URL
    the promise is rejected with [URL not configured] and [fetch] is not
    called (whatever it would do), and when [fetch] itself rejects, the
    promise is rejected with the same error. *)
Theorem safeFetch_rejections url params opts :
  (truthy url = false ->
   forall fetch,
     call fetch url params opts = Normal (Rejected (plain_error "URL not configured"))) /\
  (truthy url = true ->
   forall fetch e, (forall u o, fetch u o = Rejected e) ->
     call fetch url params opts = Normal (Rejected e)).
Proof.
  split.
  - intros Hu fetch. unfold call, safeFetch, async, safeFetch_body. now rewrite Hu.
  - intros Hu fetch e network. unfold call, safeFetch, async, safeFetch_body.
    rewrite Hu. cbn [negb].
    destruct (String.eqb _ "GET"); [|destruct (String.eqb _ "json")];
      now rewrite network.
Qed.

End Outcomes.

Lemma safeFetch_ok_fulfils_witness :
  safeFetch (fun _ _ => Fulfilled {| ok := true; status := 200; statusText := "OK";
                                     text := Some "<html>" |})
    "token" (fun _ => "category=FABRIC") (fun _ => "") (fun _ => None)
    "/components/qualities/" [("category", "FABRIC")]
    {| opt_method := ""; opt_contentType := "" |} =
  Normal (Fulfilled (JObject [("raw", JString "<html>")])).
Proof.
  apply (safeFetch_ok_fulfils "token" (fun _ => "category=FABRIC") (fun _ => "")
           (fun _ => None) (fun _ _ => Fulfilled _)
           {| ok := true; status := 200; statusText := "OK"; text := Some "<html>" |});
    reflexivity.
Defined.

End RequestFacts.

Module ListenerFacts.
Import JS ComponentForm.

(** ** The listeners of the form *)

Lemma assign_assign (el : option string) (a b : string) :
  assign (assign el a) b = assign el b.
Proof. now destruct el. Qed.


Lemma index_of_value_nth (v : string) (l : list option_el) : forall k i,
  index_of_value v l k = Some i ->
  exists o, nth_error l (i - k) = Some o /\ o_value o = v /\ (k <= i)%nat.
Proof.
  induction l as [|o l IH]; intros k i H; simpl in H; [discriminate|].
  destruct (String.eqb (o_value o) v) eqn:E.
  - injection H as <-. exists o. rewrite Nat.sub_diag.
    apply String.eqb_eq in E. auto.
  - destruct (IH _ _ H) as [o' [H1 [H2 H3]]]. exists o'.
    replace (i - k)%nat with (S (i - S k)) by lia. simpl. repeat split; auto. lia.
Qed.

Lemma index_of_value_none (v : string) (l : list option_el) : forall k,
  index_of_value v l k = None <-> ~ In v (map o_value l).
Proof.
  induction l as [|o l IH]; intros k; simpl; [tauto|].
  destruct (String.eqb (o_value o) v) eqn:E.
  - apply String.eqb_eq in E. split; [discriminate|]. intros H. elim H. now left.
  - apply String.eqb_neq in E. rewrite IH. tauto.
Qed.

(** Assigning [select.value]: the select then has that value when an option
    offers it, and no selection (the empty value) otherwise. *)
Lemma select_value_set (v : string) (s : select) :
  (In v (map o_value (options s)) -> select_value (set_select_value v s) = v) /\
  (~ In v (map o_value (options s)) -> select_value (set_select_value v s) = "").
Proof.
  unfold select_value, selected_option, set_select_value. cbn [selectedIndex options].
  destruct (index_of_value v (options s) 0) as [i|] eqn:E.
  - destruct (index_of_value_nth _ _ _ _ E) as [o [H1 [H2 _]]].
    rewrite Nat.sub_0_r in H1. rewrite H1. split; [auto|].
    intros H. elim H. rewrite <- H2. apply in_map. eapply nth_error_In; eauto.
  - split; [|reflexivity]. intros H. apply index_of_value_none in E. tauto.
Qed.

(** X4.  An [input] on the logistics field recomputes the three derived
    fields from the cost, the width and the unit the form holds (the unit
    is inch when its field is blank, the logistics percent 0 when the input
    is blank), the final cost being the final price per unit; it leaves the
    cost, width and unit fields, sends no request, and a second [input]
    with the same value changes nothing. *)
Theorem logistics_input_recomputes (w : world) (v old : string) :
  logisticsEl (dom w) = Some old ->
  let d := dom w in
  let w' := step w (LogisticsInput v) in
  let m := computeClientMetrics (value_or_empty (costEl d)) (value_or_empty (widthEl d))
             (or_else (value_or_empty (widthUomEl d)) "inch") (or_else v "0") in
  finalPriceEl (dom w') = assign (finalPriceEl d) (final_price_per_unit m) /\
  pricePerSqftEl (dom w') = assign (pricePerSqftEl d) (price_per_sqfoot m) /\
  finalCostEl (dom w') = assign (finalCostEl d) (final_price_per_unit m) /\
  costEl (dom w') = costEl d /\ widthEl (dom w') = widthEl d /\
  widthUomEl (dom w') = widthUomEl d /\
  requests w' = requests w /\ inflight w' = inflight w /\
  step w' (LogisticsInput v) = w'.
Proof.
  intros Hl d w' m.
  assert (E : w' = with_dom
                (with_costs (costEl d) (widthEl d) (widthUomEl d)
                   (assign (finalPriceEl d) (final_price_per_unit m))
                   (assign (pricePerSqftEl d) (price_per_sqfoot m))
                   (assign (finalCostEl d) (final_cost m))
                   (with_logistics (Some v) d)) w).
  { unfold w', step, d. rewrite Hl. reflexivity. }
  rewrite E. cbn.
  repeat (split; [reflexivity|]).
  rewrite !assign_assign. reflexivity.
Qed.

Lemma logistics_input_recomputes_witness :
  finalCostEl (dom (step (with_dom stale_page fabric_world) (LogisticsInput "10"))) =
  Some "11.00".
Proof.
  destruct (logistics_input_recomputes (with_dom stale_page fabric_world) "10" ""
              eq_refl) as [_ [_ [H _]]].
  rewrite H. reflexivity.
Defined.

(** X5.  Selecting the product option of value [v]: the hidden content
    type and object id take the option's content type and [v], the help
    text the option's type (its label or text when it has none), and one
    item request is sent, for that content type and [v] with the quality
    and logistics percent the form holds, exactly when the content type and
    [v] are not empty and the URL is configured.  When no option has the
    value, the select has no selection: the three are emptied and nothing
    is sent. *)
Theorem product_change_request (w : world) (p : select) (v : string) :
  productEl (dom w) = Some p ->
  let d := dom w in
  let w' := step w (ProductChange v) in
  (forall i, index_of_value v (options p) 0 = Some i ->
     exists o, nth_error (options p) i = Some o /\ o_value o = v /\
       let ct := field_or_empty (o_ct o) in
       let help := or_else (field_or_empty (o_type o))
                     (or_else (field_or_empty (o_label o)) (o_text o)) in
       hiddenCT (dom w') = assign (hiddenCT d) ct /\
       hiddenOID (dom w') = assign (hiddenOID d) v /\
       productHelp (dom w') = assign (productHelp d) help /\
       requests w' =
         (requests w ++
          if (truthy ct && truthy v && url_inventory_item (cfg w))%bool
          then [inventory_item ct v (quality_value d) (value_or_empty (logisticsEl d))]
          else [])%list) /\
  (index_of_value v (options p) 0 = None ->
     hiddenCT (dom w') = assign (hiddenCT d) "" /\
     hiddenOID (dom w') = assign (hiddenOID d) "" /\
     productHelp (dom w') = assign (productHelp d) "" /\
     requests w' = requests w).
Proof.
  intros Hp d w'. unfold w', step. rewrite Hp. unfold on_product_change.
  cbn [dom with_dom productEl with_selects].
  unfold select_value, selected_option, set_select_value.
  cbn [selectedIndex options]. split.
  - intros i Hi. rewrite Hi.
    destruct (index_of_value_nth _ _ _ _ Hi) as [o [Hn [Hv _]]].
    rewrite Nat.sub_0_r in Hn. exists o. rewrite Hn, Hv.
    split; [reflexivity|]. split; [reflexivity|]. cbv zeta.
    destruct (truthy (field_or_empty (o_ct o)) && truthy v)%bool; cbn.
    + destruct (url_inventory_item (cfg w)); cbn;
        repeat (split; [reflexivity|]); [reflexivity|now rewrite app_nil_r].
    + repeat (split; [reflexivity|]). now rewrite app_nil_r.
  - intros Hi. rewrite Hi. cbn. repeat (split; [reflexivity|]). reflexivity.
Qed.

Lemma product_change_request_witness :
  requests (step (with_dom (with_selects (qualityEl fabric_page)
                              (Some (fold_left appendChild (map type_option premium_types)
                                       (cleared "-- Select type --"))) fabric_page)
                    fabric_world) (ProductChange "10")) =
  [inventory_item "7" "10" "" "0"].
Proof.
  set (p := fold_left appendChild (map type_option premium_types)
              (cleared "-- Select type --")).
  destruct (product_change_request
              (with_dom (with_selects (qualityEl fabric_page) (Some p) fabric_page)
                 fabric_world) p "10" eq_refl) as [H _].
  destruct (H 1%nat eq_refl) as [o [Ho [_ [_ [_ [_ Hr]]]]]].
  injection Ho as <-. exact Hr.
Defined.



Lemma on_quality_change_effect (v : string) (w : world) :
  let d := dom w in
  let w' := on_quality_change v w in
  qualityEl (dom w') = qualityEl d /\
  productEl (dom w') = clearSelect (productEl d) "-- Loading product types --" /\
  requests w' =
    (requests w ++
     if (truthy (category_of d) && truthy v && present (productEl d) &&
         url_types_by_quality (cfg w))%bool
     then [types_by_quality (category_of d) v ""] else [])%list.
Proof.
  intros d w'. unfold w', on_quality_change, loadTypesByQuality, category_of.
  fold d. destruct (productEl d) as [p|] eqn:Ep.
  - cbn [present]. rewrite andb_true_r.
    set (c := match categoryEl d with Some c => toUpperCase c | None => "" end).
    destruct (truthy c && truthy v)%bool.
    + cbn. destruct (url_types_by_quality (cfg w));
        rewrite ?app_nil_r; repeat split; reflexivity.
    + cbn. rewrite app_nil_r. repeat split; reflexivity.
  - cbn. fold d. rewrite ?Ep, andb_false_r, app_nil_r. repeat split; reflexivity.
Qed.

(** ** When a load settles *)

(** X7.  When the qualities arrive, the quality select offers the
    placeholder and then one option per row, in the order of the rows.  The
    value it had when the load began is restored: when the rows offer it,
    the select has it again and its types are requested (for a category
    that is not empty, a product select on the page and a configured URL);
    when they do not, the select has no selection, nothing is requested and
    the product select shows its loading placeholder; with no earlier value
    nothing is selected, nothing requested and the product select is
    kept. *)
Theorem qualities_response_restores (w : world) (id : nat) (prev : string)
    (rest : list (nat * (pending * bool))) (row0 : row) (rows : list row)
    (item : item_response) (q0 : select) :
  take_inflight id (inflight w) = Some ((await_qualities prev, true), rest) ->
  qualityEl (dom w) = Some q0 ->
  let d := dom w in
  let w' := step w (Settle id (Json (row0 :: rows) item)) in
  let values := map row_value (row0 :: rows) in
  (exists q, qualityEl (dom w') = Some q /\
     options q = placeholder_option "-- Select quality --"
                 :: map quality_option (row0 :: rows)) /\
  (prev = "" ->
     quality_value (dom w') = "" /\ productEl (dom w') = productEl d /\
     requests w' = requests w) /\
  (prev <> "" -> In prev values ->
     quality_value (dom w') = prev /\
     requests w' =
       (requests w ++
        if (truthy (category_of d) && present (productEl d) &&
            url_types_by_quality (cfg w))%bool
        then [types_by_quality (category_of d) prev ""] else [])%list) /\
  (prev <> "" -> ~ In prev values ->
     quality_value (dom w') = "" /\
     productEl (dom w') = clearSelect (productEl d) "-- Loading product types --" /\
     requests w' = requests w).
Proof.
  intros Ht Hq d w' values.
  set (q := fold_left appendChild (map quality_option (row0 :: rows))
              (cleared "-- Select quality --")).
  assert (Hopt : options q = placeholder_option "-- Select quality --"
                             :: map quality_option (row0 :: rows)).
  { unfold q. rewrite StaleFacts.fold_appendChild. reflexivity. }
  assert (Hvals : map o_value (options q) = "" :: values).
  { rewrite Hopt. unfold values. cbn [map]. rewrite !map_map. reflexivity. }
  set (w0 := {| dom := dom w; cfg := cfg w; next_id := next_id w;
                inflight := rest; requests := requests w |}).
  assert (E : w' = if truthy prev
                   then on_quality_change (select_value (set_select_value prev q))
                          (with_dom (with_selects (Some (set_select_value prev q))
                                       (productEl d) d) w0)
                   else with_dom (with_selects (Some q) (productEl d) d) w0).
  { unfold w', step. rewrite Ht. cbn [resume]. unfold resume_qualities.
    cbn [dom]. rewrite Hq. reflexivity. }
  clearbody w'. subst w'.
  destruct prev as [|c prev'].
  - cbn [truthy]. split.
    + exists q. split; [reflexivity|exact Hopt].
    + split; [intros _; split;
                [unfold quality_value; cbn [dom with_dom qualityEl with_selects];
                 unfold q; rewrite StaleFacts.fold_appendChild; reflexivity
                |split; reflexivity]|].
      split; intros H; now elim H.
  - cbn [truthy]. set (prev := String c prev') in *.
    set (w1 := with_dom (with_selects (Some (set_select_value prev q)) (productEl d) d) w0).
    destruct (on_quality_change_effect (select_value (set_select_value prev q)) w1)
      as [H1 [H2 H3]].
    assert (Hc : category_of (dom w1) = category_of d) by reflexivity.
    rewrite Hc in H3.
    change (qualityEl (dom w1)) with (Some (set_select_value prev q)) in H1.
    change (productEl (dom w1)) with (productEl d) in H2, H3.
    change (requests w1) with (requests w) in H3.
    change (cfg w1) with (cfg w) in H3.
    unfold quality_value. rewrite H1, H2, H3. split.
    + exists (set_select_value prev q). split; [reflexivity|exact Hopt].
    + split; [discriminate|].
      destruct (select_value_set prev q) as [Hin Hnot]. rewrite Hvals in Hin, Hnot.
      split.
      * intros _ Hv. rewrite Hin by now right.
        split; [reflexivity|].
        unfold prev at 2. cbn [truthy]. rewrite andb_true_r. reflexivity.
      * intros _ Hv.
        assert (Hn : ~ In prev ("" :: values)) by (intros [F|F]; [discriminate F|tauto]).
        rewrite Hnot by exact Hn.
        split; [reflexivity|]. split; [reflexivity|].
        cbn [truthy]. rewrite andb_false_r. cbn. apply app_nil_r.
Qed.

Lemma qualities_response_restores_witness :
  quality_value
    (dom (step (run fabric_world [QualityChange "1"; CategoryChange "fabric"])
            (Settle 1 (Json [quality_row "1" "Premium"; quality_row "2" "Standard"]
                         no_item)))) = "1".
Proof.
  assert (Ht : take_inflight 1
                 (inflight (run fabric_world [QualityChange "1"; CategoryChange "fabric"])) =
               Some ((await_qualities "1", true), [(0%nat, (await_types "", true))]))
    by (vm_compute; reflexivity).
  assert (Hq : qualityEl (dom (run fabric_world [QualityChange "1"; CategoryChange "fabric"])) =
               Some (cleared "-- Loading qualities... --"))
    by (vm_compute; reflexivity).
  destruct (qualities_response_restores _ _ _ _ (quality_row "1" "Premium")
              [quality_row "2" "Standard"] no_item _ Ht Hq) as [_ [_ [H _]]].
  destruct H as [H _]; [discriminate|simpl; tauto|exact H].
Defined.

(** X8.  A load that brings no rows leaves its select with one
    placeholder: the error text when the request could not be sent or
    failed, the nothing-found text when the response has no results.  It
    leaves the other select, sends nothing and only retires the request. *)
Theorem load_without_rows (w : world) (id : nat) (prev : string) (sent : bool)
    (r : reply) (rest : list (nat * (pending * bool))) :
  no_rows sent r = true ->
  let w' := step w (Settle id r) in
  (take_inflight id (inflight w) = Some ((await_qualities prev, sent), rest) ->
     qualityEl (dom w') =
       clearSelect (qualityEl (dom w))
         (if rejected sent r then "-- Error loading qualities --"
          else "-- No qualities found --") /\
     productEl (dom w') = productEl (dom w) /\
     requests w' = requests w /\ inflight w' = rest) /\
  (take_inflight id (inflight w) = Some ((await_types prev, sent), rest) ->
     productEl (dom w') =
       clearSelect (productEl (dom w))
         (if rejected sent r then "-- Error loading types --"
          else "-- No types found --") /\
     qualityEl (dom w') = qualityEl (dom w) /\
     requests w' = requests w /\ inflight w' = rest).
Proof.
  intros Hn w'. unfold w', step. split; intros Ht; rewrite Ht; cbn [resume].
  - unfold resume_qualities. cbn [dom].
    destruct (qualityEl (dom w)) as [q|] eqn:Eq.
    + destruct sent; [destruct r as [|[|row0 rows] item]|];
        try discriminate Hn; cbn; repeat split; reflexivity.
    + cbn. rewrite Eq. repeat split; reflexivity.
  - unfold resume_types. cbn [dom].
    destruct (productEl (dom w)) as [p|] eqn:Ep.
    + destruct sent; [destruct r as [|[|row0 rows] item]|];
        try discriminate Hn; cbn; repeat split; reflexivity.
    + cbn. rewrite Ep. repeat split; reflexivity.
Qed.

Lemma load_without_rows_witness :
  productEl (dom (run fabric_world [QualityChange "1"; Settle 0 Failed])) =
  Some (cleared "-- Error loading types --").
Proof.
  destruct (load_without_rows (step fabric_world (QualityChange "1")) 0 "" true
              Failed [] eq_refl) as [_ H].
  destruct H as [H1 _]; [vm_compute; reflexivity|].
  unfold run. cbn [fold_left]. rewrite H1. vm_compute. reflexivity.
Defined.

(** ** One request at a time *)













End ListenerFacts.

Module PreviewFacts.
Import JS Costing.

(** ** The SKU preview list *)

Lemma or_else_or_else (a b : string) : or_else (or_else a b) b = or_else a b.
Proof.
  unfold or_else. destruct (truthy a) eqn:E; [now rewrite E|].
  now destruct (truthy b).
Qed.

Lemma preview_line_fetched (url : string) (server : answers) (ch : checkbox) :
  preview_line
    (fetchSkuForColor url server
       {| colorId := cb_value ch;
          colorName := or_else (cb_colorName ch) (cb_value ch) |}) =
  line_for (cb_colorName ch) (cb_value ch) url (server (cb_value ch)).
Proof.
  unfold preview_line, fetchSkuForColor, line_for. cbn.
  rewrite or_else_or_else.
  destruct (truthy url); [destruct (server (cb_value ch))|]; reflexivity.
Qed.

(** X10.  With colour checkboxes and the preview list on the page, a
    recomputation leaves in the list one line per checked colour, in
    document order: the colour's name (its id when it has none), a colon,
    and the SKU the server answered, or [(preview unavailable)] when the
    request failed or brought no SKU.  With no colour checked the list
    says so.  The legacy colour field is hidden while a colour is checked,
    and shown again when none is, unless the page has the colour select. *)
Theorem preview_lines (url : string) (server : answers) (p : page)
    (boxes : list checkbox) (pv : preview) :
  colorsContainer p = Some boxes -> skuPreviewList p = Some pv ->
  skuPreviewList (recompute url server p) =
    Some (match checked_boxes boxes with
          | [] => NoColorsSelected
          | cs =>
              PreviewLines
                (map (fun ch => line_for (cb_colorName ch) (cb_value ch) url
                                  (server (cb_value ch))) cs)
          end) /\
  legacyColorField (recompute url server p) =
    match checked_boxes boxes, colorSelect p with
    | [], None => assign (legacyColorField p) ""
    | [], Some _ => legacyColorField p
    | _ :: _, _ => assign (legacyColorField p) "none"
    end.
Proof.
  intros Hb Hpv. rewrite (CostingFacts.recompute_container _ _ _ _ Hb).
  unfold calls_for.
  destruct (checked_boxes boxes) as [|ch cs] eqn:E.
  - cbn. rewrite Hpv. split; [reflexivity|]. now destruct (colorSelect p).
  - cbn [map]. unfold resolve. cbn [skuPreviewList with_preview].
    rewrite Hpv. cbn [set_preview legacyColorField with_preview skuPreviewList].
    split; [|reflexivity]. cbn [map]. rewrite preview_line_fetched.
    do 3 f_equal. rewrite !map_map. apply map_ext. intros a.
    apply preview_line_fetched.
Qed.

Lemma preview_lines_witness :
  skuPreviewList
    (recompute default_compute_sku sku_server
       (with_preview (Some GeneratingPreviews) (Some "") None page_without_preview_list)) =
  Some (PreviewLines ["Red: LIN-NEW-RED"]).
Proof.
  destruct (preview_lines default_compute_sku sku_server
              (with_preview (Some GeneratingPreviews) (Some "") None
                 page_without_preview_list)
              red_checked GeneratingPreviews eq_refl eq_refl) as [H _].
  rewrite H. reflexivity.
Defined.

(** X11.  Without colour checkboxes the colour select decides.  With a
    colour selected, one SKU is fetched for it under the text of the
    selected option: the list, if any, shows its line and the SKU field, if
    any, takes the fetched SKU (empty on failure).  With none selected the
    list says so and the SKU field keeps its value, unlike the checkbox
    branch, which empties it.  The legacy colour field is not touched. *)
Theorem single_select_preview (url : string) (server : answers) (p : page)
    (value text : string) :
  colorsContainer p = None -> colorSelect p = Some (value, text) ->
  let r := recompute url server p in
  (truthy value = true ->
     skuPreviewList r =
       set_preview (skuPreviewList p)
         (PreviewLines [line_for text value url (server value)]) /\
     skuInput r =
       assign (skuInput p)
         (if truthy url
          then match server value with Some s => s | None => "" end
          else "")) /\
  (truthy value = false ->
     skuPreviewList r = set_preview (skuPreviewList p) NoColorsSelected /\
     skuInput r = skuInput p) /\
  legacyColorField r = legacyColorField p.
Proof.
  intros Hc Hs r. unfold r, recompute, updateSkuPreviews. rewrite Hc, Hs.
  destruct (truthy value) eqn:E.
  - cbn. split; [|split; [discriminate|reflexivity]].
    intros _. unfold preview_line, line_for, fetchSkuForColor. cbn.
    destruct (truthy url); [destruct (server value)|]; split; reflexivity.
  - cbn. split; [discriminate|]. split; [|reflexivity].
    intros _. split; reflexivity.
Qed.

Lemma single_select_preview_witness :
  skuPreviewList (recompute default_compute_sku sku_server single_select_page) =
    Some (PreviewLines ["Red: LIN-NEW-RED"]) /\
  skuInput (recompute default_compute_sku sku_server single_select_page) =
    Some "LIN-NEW-RED".
Proof.
  destruct (single_select_preview default_compute_sku sku_server single_select_page
              "7" "Red" eq_refl eq_refl) as [H _].
  destruct (H eq_refl) as [H1 H2]. rewrite H1, H2. split; reflexivity.
Defined.

End PreviewFacts.

Module ChatLineFacts.
Import JS Chat.


Example not_connected_is_reported :
  lines (sendMessage connecting_chat) = [not_connected] /\
  frames (sendMessage connecting_chat) = [] /\
  input (sendMessage connecting_chat) = Some "hello".
Proof. repeat split. Qed.

End ChatLineFacts.
